(** * Paragon board extraction and projection: a shallow embedding

    The development follows the three source objects of the extension:
    [MaxrollParser] (the Maxroll.gg extractor), [ParagonParser] (the
    Mobalytics extractor) and [TableGenerator] (the grid projector that
    emits the accessible table).

    Numbers.  JavaScript numbers are modelled by their exact values:
    style coordinates are rationals ([Q]), grid indices, board indices and
    rotation angles are integers ([Z]).  A decimal literal stands for the
    rational it denotes; the rounding of [parseFloat] to the nearest double
    is not modelled.  The division of a coordinate by the grid spacing (8
    or 1) is exact in both readings.  Sums and differences of coordinates
    are exact here and rounded in the source: the theorems that rest on
    them are stated for whole coordinates of at most 2^50 in magnitude
    ([Spec.whole]), on which the two agree.  The remainder operator [%] is the
    truncating one ([Z.rem]) and [Math.round] rounds halves upwards.
    Non-finite numbers (a [NaN] read from a digit-less run such as
    [left:-em]) appear only in the result of the style parsers, where they
    are kept apart from the finite values.

    The DOM is modelled by records that hold what the extractors read from
    an element: style attributes as raw strings, class lists, and the
    header texts of a board. *)

From stdpp Require Import base option list sorting gmap strings pretty.
From Stdlib Require Import ZArith QArith Qround Qabs Lia Lqa Ascii.

Local Open Scope Z_scope.

(** ** JavaScript primitives *)

Module JS.

(** [a % b] on integers: the sign follows the dividend. *)
Definition rem (a b : Z) : Z := Z.rem a b.

(** [Math.round]: nearest integer, a fractional part of exactly one half
    goes towards plus infinity. *)
Definition Math_round (x : Q) : Z := Qfloor (x + (1 # 2))%Q.

(** [Math.abs(x) < y] and the strict comparisons on finite numbers. *)
Definition lt (x y : Q) : bool :=
  match (x ?= y)%Q with Lt => true | _ => false end.

Definition gt (x y : Q) : bool := lt y x.

(** [x === y] on finite numbers. *)
Definition eq (x y : Q) : bool := Qeq_bool x y.

(** [Math.min(...l)] and [Math.max(...l)] for a list with head [x]. *)
Definition Math_min (x : Z) (l : list Z) : Z := foldr Z.min x l.
Definition Math_max (x : Z) (l : list Z) : Z := foldr Z.max x l.

(** [array.indexOf(x)], with [-1] when [x] does not occur. *)
Fixpoint indexOf {A} (eqb : A -> A -> bool) (x : A) (l : list A) : Z :=
  match l with
  | [] => -1
  | y :: l' =>
      if eqb y x then 0
      else let i := indexOf eqb x l' in if i =? -1 then -1 else i + 1
  end.

(** The counter values of [for (let i = 0; i < n; i++)]. *)
Definition upto (n : Z) : list Z := Z.of_nat <$> seq 0 (Z.to_nat n).

End JS.

(** ** Scanning style strings

    A JavaScript string is modelled by its list of code units, restricted
    to the units below 256.  The patterns of the extractors all have the
    shape [before \s* ([-\d.]+) after]: a literal, optional white space, a
    run of digits, minus signs and dots, and a closing literal.  White
    space, run characters and the first letter of every closing literal are
    pairwise disjoint, so the greedy choice of the regular expression
    engine is the only one that can succeed and no backtracking is
    modelled. *)

Module Style.

Definition chars (s : string) : list ascii := String.list_ascii_of_string s.

(** [\s] on code units below 256. *)
Definition is_space (c : ascii) : bool :=
  let n := N_of_ascii c in
  ((9 <=? n) && (n <=? 13) || (n =? 32) || (n =? 160))%N.

(** [\d] *)
Definition is_digit (c : ascii) : bool :=
  let n := N_of_ascii c in ((48 <=? n) && (n <=? 57))%N.

(** [[-\d.]] *)
Definition is_numchar (c : ascii) : bool :=
  is_digit c || Ascii.eqb c "-" || Ascii.eqb c ".".

(** The longest prefix whose characters satisfy [f], and what follows. *)
Fixpoint span (f : ascii -> bool) (s : list ascii) : list ascii * list ascii :=
  match s with
  | [] => ([], [])
  | c :: s' =>
      if f c then let (run, rest) := span f s' in (c :: run, rest)
      else ([], s)
  end.

(** Matching a literal at the start of [s]; the result is what follows. *)
Fixpoint literal (p s : list ascii) : option (list ascii) :=
  match p, s with
  | [], _ => Some s
  | _ :: _, [] => None
  | a :: p', b :: s' => if Ascii.eqb a b then literal p' s' else None
  end.

Definition starts_with (p : string) (s : list ascii) : bool :=
  match literal (chars p) s with Some _ => true | None => false end.

(** One attempt of [before \s* ([-\d.]+) (?:after1|after2|...)] at the
    start of [s] ([\s*] only when [spaces] is set); the result is the
    captured run. *)
Definition run_at (before : string) (spaces : bool) (after : list string)
    (s : list ascii) : option (list ascii) :=
  match literal (chars before) s with
  | None => None
  | Some s1 =>
      let s2 := if spaces then (span is_space s1).2 else s1 in
      let (run, s3) := span is_numchar s2 in
      match run with
      | [] => None
      | _ :: _ =>
          if existsb (fun u => starts_with u s3) after then Some run else None
      end
  end.

(** [s.match(pattern)] for an unanchored pattern: the attempt is made at
    every offset, leftmost first. *)
Fixpoint search {A} (attempt : list ascii -> option A) (s : list ascii)
    : option A :=
  match attempt s with
  | Some r => Some r
  | None => match s with [] => None | _ :: s' => search attempt s' end
  end.

Definition digit_value (c : ascii) : Z := Z.of_N (N_of_ascii c) - 48.

Definition decimal (ds : list ascii) : Z :=
  fold_left (fun acc c => 10 * acc + digit_value c) ds 0.

End Style.

(** A number as a style parser returns it. *)
Inductive number := Finite (q : Q) | NaN.

Module JSString.

(** [parseFloat] on a captured run: leading white space, an optional sign,
    then digits with an optional fraction; [NaN] when no digit is found.
    A run holds no letter, so the exponent and [Infinity] forms cannot
    occur.  The value is the exact decimal, in lowest terms. *)
Definition parseFloat (s : list ascii) : number :=
  let s0 := (Style.span Style.is_space s).2 in
  let (negative, s1) :=
    match s0 with
    | c :: r =>
        if Ascii.eqb c "-" then (true, r)
        else if Ascii.eqb c "+" then (false, r) else (false, s0)
    | [] => (false, s0)
    end in
  let (ip, s2) := Style.span Style.is_digit s1 in
  let fp :=
    match s2 with
    | c :: r => if Ascii.eqb c "." then (Style.span Style.is_digit r).1 else []
    | [] => []
    end in
  match ip, fp with
  | [], [] => NaN
  | _, _ =>
      let magnitude :=
        (inject_Z (Style.decimal ip)
         + (Style.decimal fp # Z.to_pos (10 ^ Z.of_nat (length fp))))%Q in
      Finite (Qred (if negative then - magnitude else magnitude))
  end.

(** [s.replace(/^\d+/, '')] *)
Definition stripLeadingDigits (s : string) : string :=
  String.string_of_list_ascii (Style.span Style.is_digit (Style.chars s)).2.

(** [a || b] on strings: the empty string is falsy. *)
Definition or_else (a b : string) : string :=
  if String.eqb a "" then b else a.

(** [s.toLowerCase()] on a string of code units below 256: the letters A
    to Z and the capital letters of Latin-1 (192 to 222 without the
    multiplication sign 215) move 32 up, every other unit stays. *)
Definition lower (c : ascii) : ascii :=
  let n := N_of_ascii c in
  if ((65 <=? n) && (n <=? 90)
      || (192 <=? n) && (n <=? 222) && negb (n =? 215))%N
  then ascii_of_N (n + 32) else c.

Definition toLowerCase (s : string) : string :=
  String.string_of_list_ascii (lower <$> String.list_ascii_of_string s).

(** [s.startsWith(p)] *)
Definition startsWith (s p : string) : bool := String.prefix p s.

(** A string is truthy when it is not empty. *)
Definition truthy (s : string) : bool := negb (String.eqb s "").

End JSString.

(** Reading a property of an object literal whose values are strings.  A
    key that the literal does not have is looked up in [Object.prototype]:
    what is found there is a function or an object, never a string. *)
Module JSObject.

Inductive value := Str (s : string) | Undefined | Inherited.

Definition prototypeKeys : list string :=
  ["constructor"; "__defineGetter__"; "__defineSetter__"; "hasOwnProperty";
   "__lookupGetter__"; "__lookupSetter__"; "isPrototypeOf";
   "propertyIsEnumerable"; "toString"; "valueOf"; "__proto__";
   "toLocaleString"].

Fixpoint own (entries : list (string * string)) (key : string)
    : option string :=
  match entries with
  | [] => None
  | (k, v) :: rest => if String.eqb key k then Some v else own rest key
  end.

Definition get (entries : list (string * string)) (key : string) : value :=
  match own entries key with
  | Some v => Str v
  | None => if existsb (String.eqb key) prototypeKeys then Inherited
            else Undefined
  end.

(** [entries[key] || fallback] as a string; [None] when the value found is
    an inherited one, which is truthy and not a string. *)
Definition get_or (entries : list (string * string)) (key fallback : string)
    : option string :=
  match get entries key with
  | Str v => Some (JSString.or_else v fallback)
  | Undefined => Some fallback
  | Inherited => None
  end.

End JSObject.

(** ** Data model *)

(** Gate edge labels of the Maxroll layout, in the order of the [edges]
    array of [calculateRotation]. *)
Inductive Edge := NORTH | EAST | SOUTH | WEST.

(** Edge names of the Mobalytics layout, in the order of the [directions]
    array of [rotateDirection]. *)
Inductive Direction := TOP | RIGHT | BOTTOM | LEFT.

Definition Edge_eqb (a b : Edge) : bool :=
  match a, b with
  | NORTH, NORTH | EAST, EAST | SOUTH, SOUTH | WEST, WEST => true
  | _, _ => false
  end.

Definition Direction_eqb (a b : Direction) : bool :=
  match a, b with
  | TOP, TOP | RIGHT, RIGHT | BOTTOM, BOTTOM | LEFT, LEFT => true
  | _, _ => false
  end.

(** [{left, top}] with finite coordinates. *)
Module Position.
Record t := mk { left : Q; top : Q }.
End Position.

(** [{left, top}] as [parsePosition] returns it: each coordinate is the
    [parseFloat] of a captured run. *)
Module ParsedPosition.
Record t := mk { left : number; top : number }.

Definition finite (p : t) : option Position.t :=
  match left p, top p with
  | Finite l, Finite t => Some (Position.mk l t)
  | _, _ => None
  end.
End ParsedPosition.

(** [{row, col}]. *)
Module GridPosition.
Record t := mk { row : Z; col : Z }.
End GridPosition.

(** The [{index, name}] snapshot stored in a gate's [connectsTo]. *)
Module Connection.
Record t := mk { index : Z; name : string }.
End Connection.

(** What the extractors read from one DOM element: its [style] attribute
    (the empty string when the attribute is missing), its class list, and
    the class lists of its descendants (enough for the [querySelector]
    calls of [parseGateEdge]). *)
Module Element.
Record t := mk {
  style : string;
  classList : list string;
  descendants : list (list string)
}.
End Element.

(** A node object.  The display attributes [type], [stat], [glyphName],
    [isSelected], [rotation] and [isStart] are computed from the same
    element; the extractors and the grid do not read them and they are
    left to [element] (the text of a cell takes them from a [Display.t]).
    [connectsTo] is [None] both for [null] and for a property that was
    never assigned. *)
Module Node.
Record t := mk {
  element : Element.t;
  position : Position.t;
  gridPosition : GridPosition.t;
  isGate : bool;
  isGlyph : bool;
  gateEdge : option Edge;
  connectsTo : option Connection.t
}.

Definition set_connectsTo (c : option Connection.t) (n : t) : t :=
  mk (element n) (position n) (gridPosition n) (isGate n) (isGlyph n)
     (gateEdge n) c.
End Node.

(** The display attributes of a node object, which [Node.t] leaves out:
    [type], [stat], [glyphName] ([None] on the node objects that have no
    such property) and [isSelected]. *)
Module Display.
Record t := mk {
  type : string;
  stat : string;
  glyphName : option string;
  isSelected : bool
}.
End Display.

Module Dimensions.
Record t := mk {
  minRow : Z; maxRow : Z; minCol : Z; maxCol : Z; rows : Z; cols : Z
}.
End Dimensions.

(** The grid object maps the key [`${row},${col}`] to a node.  The key is
    modelled by the pair of integers it prints, and the stored node by its
    index in the board's [nodes] array: the grid holds references to the
    very objects of that array, so a later assignment to a node is seen
    through the grid as well. *)
Abbreviation Grid := (gmap (Z * Z) nat).

Module Board.
Record t := mk {
  index : Z;
  name : string;
  fullName : string;
  rotation : Z;
  position : option Position.t;
  nodes : list Node.t;
  grid : Grid;
  dimensions : Dimensions.t
}.

Definition set_nodes (ns : list Node.t) (b : t) : t :=
  mk (index b) (name b) (fullName b) (rotation b) (position b) ns
     (grid b) (dimensions b).

Definition set_rotation (r : Z) (b : t) : t :=
  mk (index b) (name b) (fullName b) r (position b) (nodes b)
     (grid b) (dimensions b).
End Board.

(** ** Grid construction, shared verbatim by both parser objects *)

Module GridOps.

Definition key (n : Node.t) : Z * Z :=
  (GridPosition.row (Node.gridPosition n), GridPosition.col (Node.gridPosition n)).

(** [nodes.forEach(node => { grid[key] = node })], the node at array
    index [i] being stored as the reference [i]. *)
Fixpoint buildGrid_from (i : nat) (nodes : list Node.t) (grid : Grid) : Grid :=
  match nodes with
  | [] => grid
  | node :: rest => buildGrid_from (S i) rest (<[key node := i]> grid)
  end.

Definition buildGrid (nodes : list Node.t) : Grid := buildGrid_from 0 nodes ∅.

(** [Object.keys(grid).map(...)]: the occupied positions. *)
Definition positions (grid : Grid) : list (Z * Z) := (map_to_list grid).*1.

Definition getGridDimensions (grid : Grid) : Dimensions.t :=
  match positions grid with
  | [] => Dimensions.mk 0 0 0 0 0 0
  | p :: ps =>
      let minRow := JS.Math_min p.1 (ps.*1) in
      let maxRow := JS.Math_max p.1 (ps.*1) in
      let minCol := JS.Math_min p.2 (ps.*2) in
      let maxCol := JS.Math_max p.2 (ps.*2) in
      Dimensions.mk minRow maxRow minCol maxCol
                    (maxRow - minRow + 1) (maxCol - minCol + 1)
  end.

(** [grid[`${row},${col}`] || null], dereferenced in the node array. *)
Definition getNodeAt (nodes : list Node.t) (grid : Grid) (row col : Z)
  : option Node.t :=
  i ← grid !! (row, col); nodes !! i.

End GridOps.

(** What the extractors read from one board subtree: its [style]
    attribute, the [name] and [fullName] that [parseBoardInfo] finds in the
    header elements (their text handling is not modelled), and the element
    collections returned by [querySelectorAll] for the node, gate and
    glyph-socket selectors, in document order. *)
Module BoardElement.
Record t := mk {
  style : string;
  name : string;
  fullName : string;
  nodeElements : list Element.t;
  gateElements : list Element.t;
  glyphSocketElements : list Element.t
}.
End BoardElement.

(** ** The Maxroll extractor *)

Module MaxrollParser.

Definition GRID_SPACING : Q := 1.

(** [classList.contains(c)] *)
Definition contains (c : string) (classList : list string) : bool :=
  existsb (String.eqb c) classList.

(** [element.querySelector('.a.b')] finds a descendant. *)
Definition querySelector2 (element : Element.t) (a b : string) : bool :=
  existsb (fun cl => contains a cl && contains b cl)
          (Element.descendants element).

Definition parseGateEdge (element : Element.t) : option Edge :=
  if querySelector2 element "d4t-edge" "d4t-n" then Some NORTH
  else if querySelector2 element "d4t-edge" "d4t-s" then Some SOUTH
  else if querySelector2 element "d4t-edge" "d4t-e" then Some EAST
  else if querySelector2 element "d4t-edge" "d4t-w" then Some WEST
  else None.

(** [/left:\s*([-\d.]+)(?:em|px)/] and [/top:\s*([-\d.]+)(?:em|px)/] *)
Definition parsePosition (style : string) : option ParsedPosition.t :=
  let leftMatch :=
    Style.search (Style.run_at "left:" true ["em"; "px"]) (Style.chars style) in
  let topMatch :=
    Style.search (Style.run_at "top:" true ["em"; "px"]) (Style.chars style) in
  match leftMatch, topMatch with
  | Some l, Some t =>
      Some (ParsedPosition.mk (JSString.parseFloat l) (JSString.parseFloat t))
  | _, _ => None
  end.

Definition positionToGrid (position : Position.t) : GridPosition.t :=
  {| GridPosition.col := JS.Math_round (Position.left position / GRID_SPACING);
     GridPosition.row := JS.Math_round (Position.top position / GRID_SPACING) |}.

(** An element without a position is not a node.  A position with a [NaN]
    coordinate is outside the number model of the grid and is treated the
    same way. *)
Definition parseNodeElement (element : Element.t) : option Node.t :=
  match parsePosition (Element.style element) with
  | None => None
  | Some parsed =>
      match ParsedPosition.finite parsed with
      | None => None
      | Some position =>
          let classList := Element.classList element in
          let isGate := contains "d4t-gate" classList in
          let isSocket := contains "d4t-socket" classList in
          Some {| Node.element := element;
                  Node.position := position;
                  Node.gridPosition := positionToGrid position;
                  Node.isGate := isGate;
                  Node.isGlyph := isSocket;
                  Node.gateEdge := if isGate then parseGateEdge element else None;
                  Node.connectsTo := None |}
      end
  end.

Definition parseNodes (boardEl : BoardElement.t) : list Node.t :=
  omap parseNodeElement (BoardElement.nodeElements boardEl).

Definition buildGrid := GridOps.buildGrid.
Definition getGridDimensions := GridOps.getGridDimensions.
Definition getNodeAt := GridOps.getNodeAt.

Definition getDataEdge (gridPos : GridPosition.t) (dimensions : Dimensions.t)
    : option Edge :=
  let atTop := GridPosition.row gridPos =? Dimensions.minRow dimensions in
  let atBottom := GridPosition.row gridPos =? Dimensions.maxRow dimensions in
  let atLeft := GridPosition.col gridPos =? Dimensions.minCol dimensions in
  let atRight := GridPosition.col gridPos =? Dimensions.maxCol dimensions in
  if atTop then Some NORTH
  else if atBottom then Some SOUTH
  else if atLeft then Some WEST
  else if atRight then Some EAST
  else None.

Definition edges : list Edge := [NORTH; EAST; SOUTH; WEST].

Definition calculateRotation (dataEdge visualEdge : Edge) : Z :=
  let dataIndex := JS.indexOf Edge_eqb dataEdge edges in
  let visualIndex := JS.indexOf Edge_eqb visualEdge edges in
  if (dataIndex =? -1) || (visualIndex =? -1) then 0
  else
    let expectedIndex := JS.rem (dataIndex + 2) 4 in
    let steps := JS.rem (visualIndex - expectedIndex + 4) 4 in
    steps * 90.

(** The [for (const gate of gates)] loop. *)
Fixpoint rotationOfFirstUsable (gates : list Node.t) (dimensions : Dimensions.t)
    : Z :=
  match gates with
  | [] => 0
  | gate :: rest =>
      match getDataEdge (Node.gridPosition gate) dimensions, Node.gateEdge gate with
      | Some dataEdge, Some visualEdge => calculateRotation dataEdge visualEdge
      | _, _ => rotationOfFirstUsable rest dimensions
      end
  end.

Definition determineBoardRotation (nodes : list Node.t)
    (dimensions : Dimensions.t) : Z :=
  let gates :=
    List.filter (fun n => Node.isGate n && bool_decide (is_Some (Node.gateEdge n)))
                nodes in
  if (Z.of_nat (length gates) =? 0) then 0
  else rotationOfFirstUsable gates dimensions.

(** The glyph-name backfill of the source touches only display attributes
    and leaves the node list as it is.  The position of the board is null
    when its style has none (and here also when a coordinate is [NaN]). *)
Definition parseBoard (boardEl : BoardElement.t) (boardIndex : Z) : Board.t :=
  let nodes := parseNodes boardEl in
  let grid := buildGrid nodes in
  let dimensions := getGridDimensions grid in
  let position := parsePosition (BoardElement.style boardEl) in
  let rotation := determineBoardRotation nodes dimensions in
  {| Board.index := boardIndex;
     Board.name := BoardElement.name boardEl;
     Board.fullName := BoardElement.fullName boardEl;
     Board.rotation := rotation;
     Board.position := position ≫= ParsedPosition.finite;
     Board.nodes := nodes;
     Board.grid := grid;
     Board.dimensions := dimensions |}.

(** [boardElements.forEach((boardEl, index) => ...)], boards without nodes
    being left out. *)
Fixpoint parseBoards_from (index : Z) (boardElements : list BoardElement.t)
    : list Board.t :=
  match boardElements with
  | [] => []
  | boardEl :: rest =>
      let board := parseBoard boardEl (index + 1) in
      (if 0 <? Z.of_nat (length (Board.nodes board)) then [board] else [])
        ++ parseBoards_from (index + 1) rest
  end.

(** The page is [None] when the embed container is missing, and otherwise
    the board elements found in it. *)
Definition parseAllBoards (page : option (list BoardElement.t)) : list Board.t :=
  match page with
  | None => []
  | Some boardElements => parseBoards_from 0 boardElements
  end.

(** The body starts with [return;]: nothing after it is executed, and the
    boards are left as they are. *)
Definition calculateGateConnections (boards : list Board.t) : list Board.t :=
  boards.

End MaxrollParser.

(** ** The Mobalytics extractor *)

Module ParagonParser.

Definition GRID_SPACING : Q := 8.

(** [/left:\s*([-\d.]+)em/] and [/top:\s*([-\d.]+)em/] *)
Definition parsePosition (style : string) : option ParsedPosition.t :=
  let leftMatch :=
    Style.search (Style.run_at "left:" true ["em"]) (Style.chars style) in
  let topMatch :=
    Style.search (Style.run_at "top:" true ["em"]) (Style.chars style) in
  match leftMatch, topMatch with
  | Some l, Some t =>
      Some (ParsedPosition.mk (JSString.parseFloat l) (JSString.parseFloat t))
  | _, _ => None
  end.

(** [/rotate\(([-\d.]+)deg\)/] *)
Definition parseRotation (style : string) : number :=
  match Style.search (Style.run_at "rotate(" false ["deg)"]) (Style.chars style) with
  | Some r => JSString.parseFloat r
  | None => Finite 0
  end.

(** The angle as a board stores it.  Whole numbers of degrees are
    modelled; other values are outside the number model and read as 0. *)
Definition degrees (x : number) : Z :=
  match x with
  | Finite q => if (Z.pos (Qden (Qred q)) =? 1) then Qnum (Qred q) else 0
  | NaN => 0
  end.

Definition positionToGrid (position : Position.t) : GridPosition.t :=
  {| GridPosition.col := JS.Math_round (Position.left position / GRID_SPACING);
     GridPosition.row := JS.Math_round (Position.top position / GRID_SPACING) |}.

(** An element without a position is not a node (a [NaN] coordinate is
    treated the same way, see [MaxrollParser.parseNodeElement]). *)
Definition parseNodeElement (element : Element.t) (isGate : bool)
    : option Node.t :=
  match parsePosition (Element.style element) with
  | None => None
  | Some parsed =>
      match ParsedPosition.finite parsed with
      | None => None
      | Some position =>
          Some {| Node.element := element;
                  Node.position := position;
                  Node.gridPosition := positionToGrid position;
                  Node.isGate := isGate;
                  Node.isGlyph := false;
                  Node.gateEdge := None;
                  Node.connectsTo := None |}
      end
  end.

Definition parseNodes (container : BoardElement.t) : list Node.t :=
  omap (fun element => parseNodeElement element false)
       (BoardElement.nodeElements container).

Definition parseGates (container : BoardElement.t) : list Node.t :=
  omap (fun element => parseNodeElement element true)
       (BoardElement.gateElements container).

Definition parseGlyphSocket (element : Element.t) : option Node.t :=
  match parsePosition (Element.style element) with
  | None => None
  | Some parsed =>
      match ParsedPosition.finite parsed with
      | None => None
      | Some position =>
          Some {| Node.element := element;
                  Node.position := position;
                  Node.gridPosition := positionToGrid position;
                  Node.isGate := false;
                  Node.isGlyph := true;
                  Node.gateEdge := None;
                  Node.connectsTo := None |}
      end
  end.

Definition parseGlyphSockets (container : BoardElement.t) : list Node.t :=
  omap parseGlyphSocket (BoardElement.glyphSocketElements container).

Definition buildGrid := GridOps.buildGrid.
Definition getGridDimensions := GridOps.getGridDimensions.
Definition getNodeAt := GridOps.getNodeAt.

Definition parseBoard (container : BoardElement.t) (boardIndex : Z) : Board.t :=
  let nodes := parseNodes container in
  let gates := parseGates container in
  let glyphSockets := parseGlyphSockets container in
  let allNodes := glyphSockets ++ nodes ++ gates in
  let grid := buildGrid allNodes in
  let containerStyle := BoardElement.style container in
  let boardRotation := parseRotation containerStyle in
  let boardPosition := parsePosition containerStyle in
  {| Board.index := boardIndex;
     Board.name := BoardElement.name container;
     Board.fullName := BoardElement.fullName container;
     Board.rotation := degrees boardRotation;
     Board.position := boardPosition ≫= ParsedPosition.finite;
     Board.nodes := allNodes;
     Board.grid := grid;
     Board.dimensions := getGridDimensions grid |}.

Fixpoint parseBoards_from (index : Z) (boardWrappers : list BoardElement.t)
    : list Board.t :=
  match boardWrappers with
  | [] => []
  | wrapper :: rest =>
      let board := parseBoard wrapper (index + 1) in
      (if 0 <? Z.of_nat (length (Board.nodes board)) then [board] else [])
        ++ parseBoards_from (index + 1) rest
  end.

Definition parseAllBoards (page : option (list BoardElement.t)) : list Board.t :=
  match page with
  | None => []
  | Some boardWrappers => parseBoards_from 0 boardWrappers
  end.

(** *** Gate connections *)

Definition BOARD_SIZE : Q := 168.

Definition getGateEdge (position : Position.t) : Direction :=
  let left := Position.left position in
  let top := Position.top position in
  if JS.eq top 0 then TOP
  else if JS.eq left 160 then RIGHT
  else if JS.eq top 160 then BOTTOM
  else if JS.eq left 0 then LEFT
  else if JS.lt top 40 then TOP
  else if JS.gt left 120 then RIGHT
  else if JS.gt top 120 then BOTTOM
  else LEFT.

Definition directions : list Direction := [TOP; RIGHT; BOTTOM; LEFT].

(** [rotationSteps = normalizedRotation / 90] is a whole number exactly
    when 90 divides [normalizedRotation]; otherwise [newIndex] is not an
    array index and [directions[newIndex]] is [undefined], here [None]. *)
Definition rotateDirection (edge : Direction) (rotation : Z) : option Direction :=
  let edgeIndex := JS.indexOf Direction_eqb edge directions in
  let normalizedRotation := JS.rem (JS.rem rotation 360 + 360) 360 in
  if JS.rem normalizedRotation 90 =? 0 then
    let rotationSteps := Z.quot normalizedRotation 90 in
    let newIndex := JS.rem (edgeIndex + rotationSteps) 4 in
    if newIndex <? 0 then None else directions !! Z.to_nat newIndex
  else None.

(** The [switch (direction)] of [findAdjacentBoard]: the expected position
    of the neighbour; no case applies to [undefined].  The sum and the
    difference are exact here; those of the source are rounded to double
    precision, which makes no difference on whole numbers below 2^53
    ([Spec.whole]). *)
Definition expectedPosition (current : Position.t) (direction : option Direction)
    : Position.t :=
  let currentLeft := Position.left current in
  let currentTop := Position.top current in
  match direction with
  | Some TOP => Position.mk currentLeft (currentTop - BOARD_SIZE)
  | Some RIGHT => Position.mk (currentLeft + BOARD_SIZE) currentTop
  | Some BOTTOM => Position.mk currentLeft (currentTop + BOARD_SIZE)
  | Some LEFT => Position.mk (currentLeft - BOARD_SIZE) currentTop
  | None => Position.mk currentLeft currentTop
  end.

(** The predicate handed to [boards.find].  The differences are exact
    here, with the same proviso as for [expectedPosition]. *)
Definition atExpected (currentBoard : Board.t) (expected : Position.t)
    (board : Board.t) : bool :=
  match Board.position board with
  | None => false
  | Some position =>
      if Board.index board =? Board.index currentBoard then false
      else
        let leftMatch :=
          JS.lt (Qabs (Position.left position - Position.left expected)) 10 in
        let topMatch :=
          JS.lt (Qabs (Position.top position - Position.top expected)) 10 in
        leftMatch && topMatch
  end.

Definition findAdjacentBoard (boards : list Board.t) (currentBoard : Board.t)
    (direction : option Direction) : option Board.t :=
  match Board.position currentBoard with
  | None => None
  | Some current =>
      List.find (atExpected currentBoard (expectedPosition current direction))
                boards
  end.

(** The value assigned to [node.connectsTo] for one gate. *)
Definition connectionOf (boards : list Board.t) (board : Board.t) (node : Node.t)
    : option Connection.t :=
  let gateEdge := getGateEdge (Node.position node) in
  let actualDirection := rotateDirection gateEdge (Board.rotation board) in
  match findAdjacentBoard boards board actualDirection with
  | Some connectedBoard =>
      Some {| Connection.index := Board.index connectedBoard;
              Connection.name :=
                JSString.stripLeadingDigits
                  (JSString.or_else (Board.fullName connectedBoard)
                                    (Board.name connectedBoard)) |}
  | None => None
  end.

(** The two nested [forEach] loops.  Only [connectsTo] of gate nodes is
    assigned; positions, indices and names, which the search reads, are
    not, so every gate is resolved against the boards as they were given. *)
Definition calculateGateConnections (boards : list Board.t) : list Board.t :=
  (fun board =>
     Board.set_nodes
       ((fun node =>
           if Node.isGate node
           then Node.set_connectsTo (connectionOf boards board node) node
           else node) <$> Board.nodes board)
       board) <$> boards.

(** *** Stat names *)

Definition statMap : list (string * string) :=
  [("str", "Str"); ("int", "Int"); ("dex", "Dex"); ("will", "Will");
   ("damage", "Damage"); ("damagetoelite", "Elite Damage");
   ("damagereduction", "Damage Reduction"); ("armor", "Armor");
   ("resistance", "Resistance"); ("life", "Life"); ("gate", "Gate")].

Definition normalizeStatName (stat : string) : option string :=
  JSObject.get_or statMap (JSString.toLowerCase stat) stat.

End ParagonParser.

(** ** The table generator (grid projector) *)

Module TableGenerator.

(** The two kinds of cell that [createDataCell] builds. *)
Inductive Cell := EmptyCell | NodeCell (node : Node.t).

Definition createDataCell (node : option Node.t) : Cell :=
  match node with
  | None => EmptyCell
  | Some n => NodeCell n
  end.

Definition transformCoordinates
    (displayRow displayCol minRow maxRow minCol maxCol rotation : Z)
    : GridPosition.t :=
  if rotation =? 90 then
    {| GridPosition.row := maxRow - displayCol;
       GridPosition.col := minCol + displayRow |}
  else if rotation =? 180 then
    {| GridPosition.row := maxRow - displayRow;
       GridPosition.col := maxCol - displayCol |}
  else if rotation =? 270 then
    {| GridPosition.row := minRow + displayCol;
       GridPosition.col := maxCol - displayRow |}
  else
    {| GridPosition.row := minRow + displayRow;
       GridPosition.col := minCol + displayCol |}.

Definition normalize (rotation : Z) : Z := JS.rem (JS.rem rotation 360 + 360) 360.

Definition isRotated90or270 (normalizedRotation : Z) : bool :=
  (normalizedRotation =? 90) || (normalizedRotation =? 270).

Definition displayRows (d : Dimensions.t) (normalizedRotation : Z) : Z :=
  if isRotated90or270 normalizedRotation
  then Dimensions.maxCol d - Dimensions.minCol d + 1
  else Dimensions.maxRow d - Dimensions.minRow d + 1.

Definition displayCols (d : Dimensions.t) (normalizedRotation : Z) : Z :=
  if isRotated90or270 normalizedRotation
  then Dimensions.maxRow d - Dimensions.minRow d + 1
  else Dimensions.maxCol d - Dimensions.minCol d + 1.

(** The table body: one list of cells per [tr]. *)
Definition generateTable (board : Board.t) : list (list Cell) :=
  let d := Board.dimensions board in
  let rotation := Board.rotation board in
  let normalizedRotation := normalize rotation in
  (fun displayRow =>
     (fun displayCol =>
        let p := transformCoordinates displayRow displayCol
                   (Dimensions.minRow d) (Dimensions.maxRow d)
                   (Dimensions.minCol d) (Dimensions.maxCol d)
                   normalizedRotation in
        let node := ParagonParser.getNodeAt (Board.nodes board) (Board.grid board)
                      (GridPosition.row p) (GridPosition.col p) in
        createDataCell node)
       <$> JS.upto (displayCols d normalizedRotation))
    <$> JS.upto (displayRows d normalizedRotation).

Definition rotationMap (degrees : Z) : option string :=
  if degrees =? 0 then Some "No rotation"
  else if degrees =? 90 then Some "Rotated right once"
  else if degrees =? 180 then Some "Rotated right twice"
  else if degrees =? 270 then Some "Rotated right thrice"
  else None.

Definition formatRotation (degrees : Z) : string :=
  let normalizedDegrees := JS.rem (JS.rem degrees 360 + 360) 360 in
  match rotationMap normalizedDegrees with
  | Some text => text
  | None => "Rotated " +:+ pretty degrees +:+ " degrees"
  end.

(** *** Text of a cell *)

Definition typeMap : list (string * string) :=
  [("normal", "Normal"); ("magic", "Magic"); ("rare", "Rare");
   ("legendary", "Legendary"); ("gate", "Gate"); ("glyph", "Glyph");
   ("unknown", "")].

Definition formatNodeType (type : string) : option string :=
  JSObject.get_or typeMap (JSString.toLowerCase type) type.

Record Content := mkContent { text : string; ariaLabel : string }.

(** [node] carries the flags and the connection, [shown] the display
    attributes of the same node object.  The result is [None] when the
    type display is used and is not a string. *)
Definition buildNodeContent (node : Node.t) (shown : Display.t)
    : option Content :=
  let typeDisplay := formatNodeType (Display.type shown) in
  let statDisplay := JSString.or_else (Display.stat shown) "" in
  let parts : option (list string) :=
    if Node.isGate node then
      match Node.connectsTo node with
      | Some connectsTo =>
          Some ["Gate to Board " +:+ pretty (Connection.index connectsTo)
                +:+ ": " +:+ Connection.name connectsTo]
      | None => Some ["Gate (no connection)"]
      end
    else if Node.isGlyph node || String.eqb (Display.type shown) "glyph" then
      match Display.glyphName shown with
      | Some glyphName =>
          if JSString.truthy glyphName then Some ["Glyph: " +:+ glyphName]
          else if JSString.truthy statDisplay
                  && JSString.startsWith statDisplay "Glyph:"
               then Some [statDisplay]
               else Some ["Glyph Socket"]
      | None =>
          if JSString.truthy statDisplay
             && JSString.startsWith statDisplay "Glyph:"
          then Some [statDisplay]
          else Some ["Glyph Socket"]
      end
    else
      match typeDisplay with
      | None => None
      | Some typeDisplay =>
          if JSString.truthy typeDisplay && JSString.truthy statDisplay
          then Some [typeDisplay +:+ " " +:+ statDisplay]
          else if JSString.truthy statDisplay then Some [statDisplay]
          else if JSString.truthy typeDisplay then Some [typeDisplay]
          else Some []
      end in
  match parts with
  | None => None
  | Some parts =>
      let baseText := String.concat " " parts in
      Some {| text := if Display.isSelected shown then baseText +:+ " *"
                      else baseText;
              ariaLabel := if Display.isSelected shown
                           then baseText +:+ ", selected" else baseText |}
  end.

End TableGenerator.

(** ** The content script: headings and navigation *)

Module ContentScript.

(** The [id] that [makeAccessible] gives to the heading of a board. *)
Definition headingId (board : Board.t) : string :=
  "d4a-board-" +:+ pretty (Board.index board).

(** The [href] of each link of the navigation list that
    [addNavigationLandmarks] builds, in order; nothing is built for fewer
    than two boards. *)
Definition addNavigationLandmarks (boards : list Board.t) : list string :=
  if Z.of_nat (length boards) <=? 1 then []
  else imap (fun index _ => "#d4a-board-" +:+ pretty (Z.of_nat index + 1))
            boards.

End ContentScript.

(** ** Vocabulary of the specification

    The definitions of this module follow the wording of the specification
    rather than the code; the theorems compare the two. *)

Module Spec.

(** Position in the cyclic ordering [NORTH, EAST, SOUTH, WEST]. *)
Definition index (e : Edge) : Z :=
  match e with NORTH => 0 | EAST => 1 | SOUTH => 2 | WEST => 3 end.

(** The boundary of the Dimensions that a GridPosition touches, in the
    priority North, South, West, East. *)
Inductive dataEdge (d : Dimensions.t) (p : GridPosition.t) : Edge -> Prop :=
| touches_north :
    GridPosition.row p = Dimensions.minRow d -> dataEdge d p NORTH
| touches_south :
    GridPosition.row p <> Dimensions.minRow d ->
    GridPosition.row p = Dimensions.maxRow d -> dataEdge d p SOUTH
| touches_west :
    GridPosition.row p <> Dimensions.minRow d ->
    GridPosition.row p <> Dimensions.maxRow d ->
    GridPosition.col p = Dimensions.minCol d -> dataEdge d p WEST
| touches_east :
    GridPosition.row p <> Dimensions.minRow d ->
    GridPosition.row p <> Dimensions.maxRow d ->
    GridPosition.col p <> Dimensions.minCol d ->
    GridPosition.col p = Dimensions.maxCol d -> dataEdge d p EAST.

Definition onBoundary (d : Dimensions.t) (p : GridPosition.t) : Prop :=
  GridPosition.row p = Dimensions.minRow d \/
  GridPosition.row p = Dimensions.maxRow d \/
  GridPosition.col p = Dimensions.minCol d \/
  GridPosition.col p = Dimensions.maxCol d.

(** A gate that can decide the rotation of its board. *)
Definition qualifies (d : Dimensions.t) (n : Node.t) : Prop :=
  Node.isGate n = true /\ is_Some (Node.gateEdge n) /\
  onBoundary d (Node.gridPosition n).

(** The rotation read off a gate: the difference between the index of its
    visual edge and the index of the edge opposite to its data edge. *)
Definition rotationFrom (visual data : Edge) : Z :=
  ((index visual - ((index data + 2) mod 4) + 4) mod 4) * 90.

(** The transform table of the grid projector. *)
Inductive projects (d : Dimensions.t) (displayRow displayCol : Z)
    : Z -> GridPosition.t -> Prop :=
| projects_0 :
    projects d displayRow displayCol 0
      (GridPosition.mk (Dimensions.minRow d + displayRow)
                       (Dimensions.minCol d + displayCol))
| projects_90 :
    projects d displayRow displayCol 90
      (GridPosition.mk (Dimensions.maxRow d - displayCol)
                       (Dimensions.minCol d + displayRow))
| projects_180 :
    projects d displayRow displayCol 180
      (GridPosition.mk (Dimensions.maxRow d - displayRow)
                       (Dimensions.maxCol d - displayCol))
| projects_270 :
    projects d displayRow displayCol 270
      (GridPosition.mk (Dimensions.minRow d + displayCol)
                       (Dimensions.maxCol d - displayRow)).

(** The visual extents of a board shown at [rotation]: rows and columns
    change places at 90 and 270 degrees. *)
Definition extents (d : Dimensions.t) (rotation : Z) : Z * Z :=
  let rows := Dimensions.maxRow d - Dimensions.minRow d + 1 in
  let cols := Dimensions.maxCol d - Dimensions.minCol d + 1 in
  if decide (rotation = 90 \/ rotation = 270) then (cols, rows) else (rows, cols).

(** The Dimensions of a projected table of [rows] by [cols] cells. *)
Definition tableDimensions (rows cols : Z) : Dimensions.t :=
  Dimensions.mk 0 (rows - 1) 0 (cols - 1) rows cols.

(** The local edge of a gate: the four canonical gate positions first.
    For any other position three thresholds are tried in order, top below
    40, left above 120, top above 120, and the edge is LEFT when none
    holds.  The edge chosen this way need not be the nearest one. *)
Definition offCanonical (p : Position.t) : Prop :=
  ~ (Position.top p == 0)%Q /\ ~ (Position.left p == 160)%Q /\
  ~ (Position.top p == 160)%Q /\ ~ (Position.left p == 0)%Q.

Inductive localEdge (p : Position.t) : Direction -> Prop :=
| canonical_top :
    (Position.top p == 0)%Q -> localEdge p TOP
| canonical_right :
    ~ (Position.top p == 0)%Q -> (Position.left p == 160)%Q -> localEdge p RIGHT
| canonical_bottom :
    ~ (Position.top p == 0)%Q -> ~ (Position.left p == 160)%Q ->
    (Position.top p == 160)%Q -> localEdge p BOTTOM
| canonical_left :
    ~ (Position.top p == 0)%Q -> ~ (Position.left p == 160)%Q ->
    ~ (Position.top p == 160)%Q -> (Position.left p == 0)%Q -> localEdge p LEFT
| top_below_40 :
    offCanonical p -> (Position.top p < 40)%Q -> localEdge p TOP
| left_above_120 :
    offCanonical p -> ~ (Position.top p < 40)%Q -> (120 < Position.left p)%Q ->
    localEdge p RIGHT
| top_above_120 :
    offCanonical p -> ~ (Position.top p < 40)%Q ->
    ~ (120 < Position.left p)%Q -> (120 < Position.top p)%Q -> localEdge p BOTTOM
| otherwise_left :
    offCanonical p -> ~ (Position.top p < 40)%Q ->
    ~ (120 < Position.left p)%Q -> ~ (120 < Position.top p)%Q -> localEdge p LEFT.

(** The distance from a position in the square of a board, whose canonical
    gates sit at 0 and at 160, to one of its edges. *)
Definition distanceTo (p : Position.t) (e : Direction) : Q :=
  match e with
  | TOP => Position.top p
  | RIGHT => 160 - Position.left p
  | BOTTOM => 160 - Position.top p
  | LEFT => Position.left p
  end.

(** A Position on which the arithmetic of the source is exact: both
    coordinates are whole numbers of at most 2^50 in magnitude.  The sums
    and differences that the search for a neighbour forms from such
    numbers and the board size are whole numbers below 2^53, which
    double-precision arithmetic computes without rounding. *)
Definition whole (p : Position.t) : Prop :=
  exists left top : Z,
    (Position.left p == inject_Z left)%Q /\
    (Position.top p == inject_Z top)%Q /\
    Z.abs left <= 2 ^ 50 /\ Z.abs top <= 2 ^ 50.

(** A board without a Position, or with a whole one. *)
Definition onWholes (b : Board.t) : Prop :=
  forall p, Board.position b = Some p -> whole p.

(** A whole number that double precision holds exactly. *)
Definition representable (x : Q) : Prop :=
  exists z : Z, (x == inject_Z z)%Q /\ Z.abs z <= 2 ^ 53.

(** None of the numbers that the search for a board at [expected] forms
    needs rounding: the coordinates of [expected] and their differences
    to the coordinates of every board are representable. *)
Definition unrounded (boards : list Board.t) (expected : Position.t) : Prop :=
  representable (Position.left expected) /\
  representable (Position.top expected) /\
  Forall (fun b =>
            forall p, Board.position b = Some p ->
                      representable (Position.left p - Position.left expected) /\
                      representable (Position.top p - Position.top expected))
         boards.

(** The label stored for a connected board: its full name, or its name
    when the full name is empty, without leading digits. *)
Definition label (b : Board.t) : string :=
  JSString.stripLeadingDigits
    (if decide (Board.fullName b = "") then Board.name b else Board.fullName b).

(** One clockwise quarter turn of an edge. *)
Definition clockwise (e : Direction) : Direction :=
  match e with TOP => RIGHT | RIGHT => BOTTOM | BOTTOM => LEFT | LEFT => TOP end.

(** The Position one board spacing away in the given direction. *)
Definition neighbour (p : Position.t) (e : Direction) : Position.t :=
  match e with
  | TOP => Position.mk (Position.left p) (Position.top p - 168)
  | RIGHT => Position.mk (Position.left p + 168) (Position.top p)
  | BOTTOM => Position.mk (Position.left p) (Position.top p + 168)
  | LEFT => Position.mk (Position.left p - 168) (Position.top p)
  end.

(** Agreement of two Positions within the tolerance on both axes. *)
Definition within (tolerance : Q) (p q : Position.t) : Prop :=
  (Qabs (Position.left p - Position.left q) < tolerance)%Q /\
  (Qabs (Position.top p - Position.top q) < tolerance)%Q.

(** A board that a gate of [current] may connect to when the neighbour is
    expected at [expected]. *)
Definition adjacent (current : Board.t) (expected : Position.t) (b : Board.t)
    : Prop :=
  exists p, Board.position b = Some p /\
            Board.index b <> Board.index current /\
            within 10 p expected.

(** Every closing literal starts with a character that cannot belong to
    a run. *)
Definition closes (after : list string) : Prop :=
  Forall (fun u => match Style.chars u with
                   | [] => False
                   | c :: _ => Style.is_numchar c = false
                   end) after.

(** The pattern [before \s* ([-\d.]+) after] matches at the start of [s]
    and captures [run]. *)
Definition matchesAt (before : string) (spaces : bool) (after : list string)
    (s run : list ascii) : Prop :=
  exists ws u rest,
    s = Style.chars before ++ ws ++ run ++ Style.chars u ++ rest /\
    Forall (fun c => Style.is_space c = true) ws /\
    (spaces = false -> ws = []) /\
    run <> [] /\
    Forall (fun c => Style.is_numchar c = true) run /\
    u ∈ after.

(** The pattern matches somewhere in [s]. *)
Definition present (before : string) (spaces : bool) (after : list string)
    (s : list ascii) : Prop :=
  exists pre rest run, s = pre ++ rest /\ matchesAt before spaces after rest run.

(** [run] is the capture of the leftmost match in [s]. *)
Definition firstMatch (before : string) (spaces : bool) (after : list string)
    (s run : list ascii) : Prop :=
  exists pre rest,
    s = pre ++ rest /\ matchesAt before spaces after rest run /\
    forall pre' rest', s = pre' ++ rest' -> (length pre' < length pre)%nat ->
      forall run', ~ matchesAt before spaces after rest' run'.

(** The integer nearest to [x], a half being rounded upwards. *)
Definition nearest (x : Q) (k : Z) : Prop :=
  (inject_Z k - (1 # 2) <= x /\ x < inject_Z k + (1 # 2))%Q.

(** Both coordinates of [p] are within less than half the spacing of the
    grid point in row [k] and column [j]. *)
Definition snapsTo (spacing : Q) (p : Position.t) (k j : Z) : Prop :=
  (Qabs (Position.top p - inject_Z k * spacing) < spacing / 2)%Q /\
  (Qabs (Position.left p - inject_Z j * spacing) < spacing / 2)%Q.

(** The last node in list order that sits at [k]. *)
Definition lastAt (nodes : list Node.t) (k : Z * Z) (i : nat) : Prop :=
  exists n, nodes !! i = Some n /\ GridOps.key n = k /\
    forall j m, (i < j)%nat -> nodes !! j = Some m -> GridOps.key m <> k.

End Spec.

(** ** Sample pages *)

Module Samples.

Definition element (style : string) : Element.t := Element.mk style [] [].

(** A Mobalytics board whose glyph-socket backdrop sits where its top gate
    is. *)
Definition overlaidBoard : BoardElement.t :=
  BoardElement.mk "left: 0em; top: 0em;" "Start" "1Start"
    [element "left: 80em; top: 8em;"]
    [element "left: 80em; top: 0em;"]
    [element "left: 80em; top: 0em;"].

(** Two Mobalytics boards side by side; the first has a gate on its right
    edge. *)
Definition leftBoard : BoardElement.t :=
  BoardElement.mk "left: 0em; top: 0em;" "Start" "1Start"
    [element "left: 80em; top: 80em;"]
    [element "left: 160em; top: 80em;"]
    [].

Definition rightBoard : BoardElement.t :=
  BoardElement.mk "left: 168em; top: 0em;" "Castle" "2Castle / Exploit"
    [element "left: 80em; top: 80em;"]
    [element "left: 0em; top: 80em;"]
    [].

Definition twoBoards : list Board.t :=
  ParagonParser.parseAllBoards (Some [leftBoard; rightBoard]).

(** The gate of the first board, as parsed. *)
Definition leftGate : Node.t :=
  {| Node.element := element "left: 160em; top: 80em;";
     Node.position := Position.mk 160 80;
     Node.gridPosition := GridPosition.mk 10 20;
     Node.isGate := true;
     Node.isGlyph := false;
     Node.gateEdge := None;
     Node.connectsTo := None |}.

(** The same layout with the second board too far away. *)
Definition farBoard : BoardElement.t :=
  BoardElement.mk "left: 336em; top: 0em;" "Castle" "2Castle / Exploit"
    [element "left: 80em; top: 80em;"]
    [element "left: 0em; top: 80em;"]
    [].

Definition apartBoards : list Board.t :=
  ParagonParser.parseAllBoards (Some [leftBoard; farBoard]).

(** A Maxroll gate element with an edge marker. *)
Definition maxrollGate (style marker : string) : Element.t :=
  Element.mk style ["d4t-node"; "d4t-gate"] [["d4t-edge"; marker]].

Definition maxrollNode (style : string) : Element.t :=
  Element.mk style ["d4t-node"; "d4t-r1"] [["d4t-icon"]].

(** A 3 by 3 Maxroll board with a gate in the middle of its top row. *)
Definition threeByThree (marker : string) : BoardElement.t :=
  BoardElement.mk "left: 0em; top: 0em;" "Board" "1. Board"
    [maxrollNode "left: 0em; top: 0em;";
     maxrollGate "left: 1em; top: 0em;" marker;
     maxrollNode "left: 2em; top: 0em;";
     maxrollNode "left: 0em; top: 1em;";
     maxrollNode "left: 1em; top: 1em;";
     maxrollNode "left: 2em; top: 1em;";
     maxrollNode "left: 0em; top: 2em;";
     maxrollNode "left: 1em; top: 2em;";
     maxrollNode "left: 2em; top: 2em;"]
    [] [].

(** A 2 by 2 board shown at 90 degrees, with nodes at (0,0) and (1,1). *)
Definition diagonalBoard : Board.t :=
  let b := ParagonParser.parseBoard
             (BoardElement.mk "transform: rotate(90deg);" "Board" ""
                [element "left: 0em; top: 0em;"; element "left: 8em; top: 8em;"]
                [] []) 1 in
  b.

End Samples.

(** ** Further vocabulary *)

Module Compass.

(** The edge across the board. *)
Definition opposite (e : Direction) : Direction :=
  match e with TOP => BOTTOM | RIGHT => LEFT | BOTTOM => TOP | LEFT => RIGHT end.

(** The layer of a Mobalytics node: glyph sockets lie under plain nodes,
    and plain nodes under gates. *)
Definition above (a b : Node.t) : Prop :=
  (Node.isGate a = true -> Node.isGate b = true) /\
  (Node.isGlyph a = false -> Node.isGlyph b = false).

End Compass.

(** * Properties *)

(** ** Occupied positions and their bounds *)

Lemma Math_min_spec (x : Z) (l : list Z) :
  JS.Math_min x l ∈ x :: l /\ forall y, y ∈ x :: l -> JS.Math_min x l <= y.
Proof.
  unfold JS.Math_min. induction l as [|z l [IHin IHle]]; simpl.
  - split; [apply list_elem_of_here|].
    intros y Hy. apply list_elem_of_singleton in Hy. lia.
  - split.
    + destruct (Z.min_spec z (foldr Z.min x l)) as [[_ ->]|[_ ->]].
      * apply list_elem_of_further, list_elem_of_here.
      * apply elem_of_cons in IHin. destruct IHin as [->|Hin].
        -- apply list_elem_of_here.
        -- now do 2 apply list_elem_of_further.
    + intros y Hy. apply elem_of_cons in Hy. destruct Hy as [->|Hy].
      * specialize (IHle x (list_elem_of_here _ _)). lia.
      * apply elem_of_cons in Hy. destruct Hy as [->|Hy]; [lia|].
        specialize (IHle y (list_elem_of_further _ _ _ Hy)). lia.
Qed.

Lemma Math_max_spec (x : Z) (l : list Z) :
  JS.Math_max x l ∈ x :: l /\ forall y, y ∈ x :: l -> y <= JS.Math_max x l.
Proof.
  unfold JS.Math_max. induction l as [|z l [IHin IHle]]; simpl.
  - split; [apply list_elem_of_here|].
    intros y Hy. apply list_elem_of_singleton in Hy. lia.
  - split.
    + destruct (Z.max_spec z (foldr Z.max x l)) as [[_ ->]|[_ ->]].
      * apply elem_of_cons in IHin. destruct IHin as [->|Hin].
        -- apply list_elem_of_here.
        -- now do 2 apply list_elem_of_further.
      * apply list_elem_of_further, list_elem_of_here.
    + intros y Hy. apply elem_of_cons in Hy. destruct Hy as [->|Hy].
      * specialize (IHle x (list_elem_of_here _ _)). lia.
      * apply elem_of_cons in Hy. destruct Hy as [->|Hy]; [lia|].
        specialize (IHle y (list_elem_of_further _ _ _ Hy)). lia.
Qed.

Lemma positions_occupied (grid : Grid) (r c : Z) :
  (r, c) ∈ GridOps.positions grid <-> is_Some (grid !! (r, c)).
Proof.
  unfold GridOps.positions. rewrite list_elem_of_fmap. split.
  - intros ([k v] & Hk & Hin). simpl in Hk. subst k.
    apply elem_of_map_to_list in Hin. now exists v.
  - intros [v Hv]. exists ((r, c), v). split; [reflexivity|].
    now apply elem_of_map_to_list.
Qed.

Lemma positions_empty (grid : Grid) :
  GridOps.positions grid = [] <-> grid = ∅.
Proof.
  unfold GridOps.positions. rewrite <- map_to_list_empty_iff. split.
  - apply fmap_nil_inv.
  - now intros ->.
Qed.

Lemma row_occupied (grid : Grid) (r : Z) :
  r ∈ (GridOps.positions grid).*1 <-> exists c, is_Some (grid !! (r, c)).
Proof.
  rewrite list_elem_of_fmap. split.
  - intros ([r' c] & -> & Hin). exists c. now apply positions_occupied.
  - intros [c Hc]. exists (r, c). split; [reflexivity|].
    now apply positions_occupied.
Qed.

Lemma col_occupied (grid : Grid) (c : Z) :
  c ∈ (GridOps.positions grid).*2 <-> exists r, is_Some (grid !! (r, c)).
Proof.
  rewrite list_elem_of_fmap. split.
  - intros ([r c'] & -> & Hin). exists r. now apply positions_occupied.
  - intros [r Hr]. exists (r, c). split; [reflexivity|].
    now apply positions_occupied.
Qed.

Lemma occupied_within_dimensions (grid : Grid) (r c : Z) :
  is_Some (grid !! (r, c)) ->
  let d := GridOps.getGridDimensions grid in
  Dimensions.minRow d <= r <= Dimensions.maxRow d /\
  Dimensions.minCol d <= c <= Dimensions.maxCol d.
Proof.
  intros Hrc. unfold GridOps.getGridDimensions.
  pose proof (proj2 (row_occupied grid r) (ex_intro _ c Hrc)) as Hr.
  pose proof (proj2 (col_occupied grid c) (ex_intro _ r Hrc)) as Hc.
  destruct (GridOps.positions grid) as [|p ps].
  - now apply elem_of_nil in Hr.
  - destruct (Math_min_spec p.1 (ps.*1)) as [_ Hminr].
    destruct (Math_max_spec p.1 (ps.*1)) as [_ Hmaxr].
    destruct (Math_min_spec p.2 (ps.*2)) as [_ Hminc].
    destruct (Math_max_spec p.2 (ps.*2)) as [_ Hmaxc].
    specialize (Hminr r Hr). specialize (Hmaxr r Hr).
    specialize (Hminc c Hc). specialize (Hmaxc c Hc). simpl. lia.
Qed.


(** ** Arithmetic of the primitives *)

Lemma normalize_mod (x : Z) : JS.rem (JS.rem x 360 + 360) 360 = x mod 360.
Proof.
  unfold JS.rem.
  pose proof (Z.rem_bound_abs x 360).
  Z.to_euclidean_division_equations. lia.
Qed.

Lemma normalize_period (r k : Z) :
  TableGenerator.normalize (r + 360 * k) = TableGenerator.normalize r.
Proof.
  unfold TableGenerator.normalize. rewrite !normalize_mod.
  rewrite Z.mul_comm. apply Z_mod_plus_full.
Qed.

Lemma normalize_quarter (r : Z) :
  In r [0; 90; 180; 270] -> TableGenerator.normalize r = r.
Proof.
  intros Hr. unfold TableGenerator.normalize. rewrite normalize_mod.
  simpl in Hr. destruct Hr as [<-|[<-|[<-|[<-|[]]]]]; reflexivity.
Qed.

Lemma upto_lookup (n i : Z) :
  0 <= i < n -> JS.upto n !! Z.to_nat i = Some i.
Proof.
  intros Hi. unfold JS.upto.
  rewrite list_lookup_fmap, lookup_seq_lt by lia. simpl. f_equal. lia.
Qed.

Lemma upto_length (n : Z) : length (JS.upto n) = Z.to_nat n.
Proof. unfold JS.upto. now rewrite length_fmap, length_seq. Qed.

(** ** The grid projector *)

Lemma transformCoordinates_projects (d : Dimensions.t) (dr dc rotation : Z)
    (src : GridPosition.t) :
  Spec.projects d dr dc rotation src ->
  TableGenerator.transformCoordinates dr dc
    (Dimensions.minRow d) (Dimensions.maxRow d)
    (Dimensions.minCol d) (Dimensions.maxCol d) rotation = src.
Proof. intros H. destruct H; reflexivity. Qed.

Lemma extents_display (d : Dimensions.t) (rotation : Z) :
  Spec.extents d rotation =
  (TableGenerator.displayRows d rotation, TableGenerator.displayCols d rotation).
Proof.
  unfold Spec.extents, TableGenerator.displayRows, TableGenerator.displayCols,
    TableGenerator.isRotated90or270.
  destruct (decide (rotation = 90 \/ rotation = 270)) as [[->| ->]|Hn];
    try reflexivity.
  destruct (Z.eqb_spec rotation 90); [tauto|].
  destruct (Z.eqb_spec rotation 270); [tauto|]. reflexivity.
Qed.

Lemma generateTable_cell (board : Board.t) (dr dc : Z) :
  let d := Board.dimensions board in
  let r := TableGenerator.normalize (Board.rotation board) in
  0 <= dr < TableGenerator.displayRows d r ->
  0 <= dc < TableGenerator.displayCols d r ->
  exists cells,
    TableGenerator.generateTable board !! Z.to_nat dr = Some cells /\
    length cells = Z.to_nat (TableGenerator.displayCols d r) /\
    cells !! Z.to_nat dc =
      Some (let p := TableGenerator.transformCoordinates dr dc
                       (Dimensions.minRow d) (Dimensions.maxRow d)
                       (Dimensions.minCol d) (Dimensions.maxCol d) r in
            TableGenerator.createDataCell
              (ParagonParser.getNodeAt (Board.nodes board) (Board.grid board)
                 (GridPosition.row p) (GridPosition.col p))).
Proof.
  intros d r Hr Hc. unfold TableGenerator.generateTable.
  fold d. fold r. eexists. split.
  - rewrite list_lookup_fmap, upto_lookup by exact Hr. reflexivity.
  - split.
    + now rewrite length_fmap, upto_length.
    + rewrite list_lookup_fmap, upto_lookup by exact Hc. reflexivity.
Qed.

(** C2.  For a board shown at 0, 90, 180 or 270 degrees, the table has one
    row per visual row and one cell per visual column (rows and columns of
    the Dimensions changing places at 90 and 270 degrees), and the cell at
    the 0-based display position (displayRow, displayCol) shows the source
    GridPosition that the transform table gives for that rotation, which
    is also the value of [transformCoordinates]. *)
Theorem projector_follows_transform_table
    (board : Board.t) (rotation displayRow displayCol : Z)
    (src : GridPosition.t) :
  In rotation [0; 90; 180; 270] ->
  Board.rotation board = rotation ->
  let d := Board.dimensions board in
  let extent := Spec.extents d rotation in
  0 <= displayRow < extent.1 ->
  0 <= displayCol < extent.2 ->
  Spec.projects d displayRow displayCol rotation src ->
  TableGenerator.transformCoordinates displayRow displayCol
    (Dimensions.minRow d) (Dimensions.maxRow d)
    (Dimensions.minCol d) (Dimensions.maxCol d) rotation = src /\
  length (TableGenerator.generateTable board) = Z.to_nat extent.1 /\
  exists cells,
    TableGenerator.generateTable board !! Z.to_nat displayRow = Some cells /\
    length cells = Z.to_nat extent.2 /\
    cells !! Z.to_nat displayCol =
      Some (TableGenerator.createDataCell
              (ParagonParser.getNodeAt (Board.nodes board) (Board.grid board)
                 (GridPosition.row src) (GridPosition.col src))).
Proof.
  intros Hrot Hboard d extent Hr Hc Hsrc.
  pose proof (normalize_quarter rotation Hrot) as Hnorm.
  subst extent. rewrite extents_display in *. simpl in Hr, Hc. simpl.
  split; [now apply transformCoordinates_projects|].
  split.
  - unfold TableGenerator.generateTable.
    rewrite length_fmap, upto_length. fold d. now rewrite Hboard, Hnorm.
  - destruct (generateTable_cell board displayRow displayCol)
      as (cells & Hrow & Hlen & Hcell).
    + fold d. now rewrite Hboard, Hnorm.
    + fold d. now rewrite Hboard, Hnorm.
    + exists cells. fold d in Hlen, Hcell. rewrite Hboard, Hnorm in Hlen, Hcell.
      rewrite (transformCoordinates_projects d _ _ _ src Hsrc) in Hcell.
      auto.
Qed.

(** At 90 degrees the top-left cell of the 2 by 2 sample shows the source
    position (1,0), which is empty, and its right neighbour shows (0,0). *)
Lemma projector_follows_transform_table_witness :
  TableGenerator.generateTable Samples.diagonalBoard !! 0%nat
    ≫= (.!! 1%nat)
  = Some (TableGenerator.createDataCell
            (ParagonParser.getNodeAt (Board.nodes Samples.diagonalBoard)
               (Board.grid Samples.diagonalBoard) 0 0)) /\
  TableGenerator.createDataCell
    (ParagonParser.getNodeAt (Board.nodes Samples.diagonalBoard)
       (Board.grid Samples.diagonalBoard) 1 0) = TableGenerator.EmptyCell.
Proof.
  split; [|reflexivity].
  destruct (projector_follows_transform_table Samples.diagonalBoard 90 0 1
              (GridPosition.mk 0 0))
    as (_ & _ & cells & Hrow & _ & Hcell).
  - simpl; tauto.
  - reflexivity.
  - vm_compute; split; discriminate || reflexivity.
  - vm_compute; split; discriminate || reflexivity.
  - exact (Spec.projects_90 (Board.dimensions Samples.diagonalBoard) 0 1).
  - change (Z.to_nat 0) with 0%nat in Hrow. rewrite Hrow. exact Hcell.
Defined.

(** C3.  Let a grid with its Dimensions be shown at rotation R, and let
    the resulting table, whose extents are the rotated extents, be shown
    again at rotation (360-R)%360.  The second table has the extents of
    the grid itself; its cell for an occupied GridPosition (r, c), that is
    the cell at (r - minRow, c - minCol), shows a cell q of the first
    table, and q shows (r, c) again. *)
Theorem projection_round_trip (grid : Grid) (R r c : Z) :
  In R [0; 90; 180; 270] ->
  is_Some (grid !! (r, c)) ->
  let d := ParagonParser.getGridDimensions grid in
  let back := JS.rem (360 - R) 360 in
  let shown := Spec.extents d R in
  let t := Spec.tableDimensions shown.1 shown.2 in
  let q := TableGenerator.transformCoordinates
             (r - Dimensions.minRow d) (c - Dimensions.minCol d)
             (Dimensions.minRow t) (Dimensions.maxRow t)
             (Dimensions.minCol t) (Dimensions.maxCol t) back in
  Spec.extents t back =
    (Dimensions.maxRow d - Dimensions.minRow d + 1,
     Dimensions.maxCol d - Dimensions.minCol d + 1) /\
  (0 <= GridPosition.row q < shown.1 /\ 0 <= GridPosition.col q < shown.2) /\
  TableGenerator.transformCoordinates (GridPosition.row q) (GridPosition.col q)
    (Dimensions.minRow d) (Dimensions.maxRow d)
    (Dimensions.minCol d) (Dimensions.maxCol d) R
  = GridPosition.mk r c.
Proof.
  intros HR Hocc d.
  destruct (occupied_within_dimensions grid r c Hocc) as [Hr Hc].
  change (GridOps.getGridDimensions grid) with d in Hr, Hc.
  clearbody d. destruct d as [minRow maxRow minCol maxCol rows cols].
  simpl in Hr, Hc.
  rewrite !extents_display.
  unfold TableGenerator.displayRows, TableGenerator.displayCols,
    Spec.tableDimensions, TableGenerator.transformCoordinates, JS.rem.
  simpl in HR. destruct HR as [<-|[<-|[<-|[<-|[]]]]]; simpl;
    rewrite extents_display;
    unfold TableGenerator.displayRows, TableGenerator.displayCols; simpl;
    (split; [f_equal; lia|]); (split; [lia|]); f_equal; lia.
Qed.

(** The grid of the sample board with a socket under its top gate, shown
    at 90 and then at 270 degrees: its Dimensions are rows 0..1 and columns
    10..10, and the node at (1,10) is found again. *)
Lemma projection_round_trip_witness :
  let grid := Board.grid (ParagonParser.parseBoard Samples.overlaidBoard 1) in
  ParagonParser.getGridDimensions grid = Dimensions.mk 0 1 10 10 2 1 /\
  TableGenerator.transformCoordinates (1 - 0) (10 - 10) 0 0 0 1 270
    = GridPosition.mk 0 0 /\
  TableGenerator.transformCoordinates 0 0 0 1 10 10 90 = GridPosition.mk 1 10.
Proof.
  split; [reflexivity|]. split; [reflexivity|].
  refine (proj2 (proj2 (projection_round_trip
                          (Board.grid
                             (ParagonParser.parseBoard Samples.overlaidBoard 1))
                          90 1 10 _ _))).
  - simpl; tauto.
  - eexists. reflexivity.
Defined.

(** ** Rotation is read modulo 360 *)

Lemma rotateDirection_mod (edge : Direction) (r : Z) :
  ParagonParser.rotateDirection edge r =
  ParagonParser.rotateDirection edge (r mod 360).
Proof.
  unfold ParagonParser.rotateDirection. rewrite !normalize_mod.
  now rewrite Z.mod_mod by lia.
Qed.

Lemma formatRotation_quarter (r m : Z) :
  r = 90 * m ->
  TableGenerator.formatRotation r =
  default "" (TableGenerator.rotationMap (r mod 360)).
Proof.
  intros ->. unfold TableGenerator.formatRotation. rewrite normalize_mod.
  assert (H : In ((90 * m) mod 360) [0; 90; 180; 270]).
  { simpl. Z.to_euclidean_division_equations. lia. }
  simpl in H. destruct H as [<-|[<-|[<-|[<-|[]]]]]; reflexivity.
Qed.

(** C10.  The three consumers of a board rotation reduce it with
    ((rotation % 360) + 360) % 360 first.  So for a rotation r that is a
    multiple of 90, negative or not, and any integer k, [rotateDirection],
    the table of [generateTable] and the text of [formatRotation] are the
    same for r and for r + 360k. *)
Theorem rotation_read_modulo_360 (r k m : Z) :
  r = 90 * m ->
  (forall edge, ParagonParser.rotateDirection edge (r + 360 * k) =
                ParagonParser.rotateDirection edge r) /\
  (forall board,
     TableGenerator.generateTable (Board.set_rotation (r + 360 * k) board) =
     TableGenerator.generateTable (Board.set_rotation r board)) /\
  TableGenerator.formatRotation (r + 360 * k) = TableGenerator.formatRotation r.
Proof.
  intros Hr.
  assert (Hmod : (r + 360 * k) mod 360 = r mod 360).
  { rewrite Z.mul_comm. apply Z_mod_plus_full. }
  split; [|split].
  - intros edge. rewrite rotateDirection_mod, Hmod.
    symmetry. apply rotateDirection_mod.
  - intros board. unfold TableGenerator.generateTable. simpl.
    now rewrite normalize_period.
  - rewrite (formatRotation_quarter (r + 360 * k) (m + 4 * k)) by lia.
    rewrite (formatRotation_quarter r m Hr). now rewrite Hmod.
Qed.

(** A rotation of -90 degrees, as read from [rotate(-90deg)], behaves as
    270 degrees. *)
Lemma rotation_read_modulo_360_witness :
  ParagonParser.degrees (ParagonParser.parseRotation "transform: rotate(-90deg);")
    = -90 /\
  (forall edge, ParagonParser.rotateDirection edge 270 =
                ParagonParser.rotateDirection edge (-90)) /\
  (forall board,
     TableGenerator.generateTable (Board.set_rotation 270 board) =
     TableGenerator.generateTable (Board.set_rotation (-90) board)) /\
  TableGenerator.formatRotation 270 = TableGenerator.formatRotation (-90).
Proof.
  split; [reflexivity|].
  exact (rotation_read_modulo_360 (-90) 1 (-1) eq_refl).
Defined.

(** ** Rotation inferred from gates (Maxroll) *)

Lemma getDataEdge_Some (d : Dimensions.t) (p : GridPosition.t) (e : Edge) :
  MaxrollParser.getDataEdge p d = Some e <-> Spec.dataEdge d p e.
Proof.
  unfold MaxrollParser.getDataEdge.
  destruct (Z.eqb_spec (GridPosition.row p) (Dimensions.minRow d)) as [H1|H1];
  [|destruct (Z.eqb_spec (GridPosition.row p) (Dimensions.maxRow d)) as [H2|H2];
    [|destruct (Z.eqb_spec (GridPosition.col p) (Dimensions.minCol d)) as [H3|H3];
      [|destruct (Z.eqb_spec (GridPosition.col p) (Dimensions.maxCol d)) as [H4|H4]]]];
  (split; [intros [= <-]; now constructor | inversion 1; congruence]).
Qed.

Lemma getDataEdge_None (d : Dimensions.t) (p : GridPosition.t) :
  MaxrollParser.getDataEdge p d = None <-> ~ Spec.onBoundary d p.
Proof.
  unfold MaxrollParser.getDataEdge, Spec.onBoundary.
  destruct (Z.eqb_spec (GridPosition.row p) (Dimensions.minRow d));
  destruct (Z.eqb_spec (GridPosition.row p) (Dimensions.maxRow d));
  destruct (Z.eqb_spec (GridPosition.col p) (Dimensions.minCol d));
  destruct (Z.eqb_spec (GridPosition.col p) (Dimensions.maxCol d));
  split; try discriminate; tauto.
Qed.

Lemma dataEdge_onBoundary (d : Dimensions.t) (p : GridPosition.t) (e : Edge) :
  Spec.dataEdge d p e -> Spec.onBoundary d p.
Proof. unfold Spec.onBoundary. inversion 1; tauto. Qed.

Lemma calculateRotation_rotationFrom (data visual : Edge) :
  MaxrollParser.calculateRotation data visual = Spec.rotationFrom visual data.
Proof. destruct data, visual; reflexivity. Qed.

Lemma determineBoardRotation_loop (nodes : list Node.t) (d : Dimensions.t) :
  MaxrollParser.determineBoardRotation nodes d =
  MaxrollParser.rotationOfFirstUsable
    (List.filter
       (fun n => Node.isGate n && bool_decide (is_Some (Node.gateEdge n))) nodes)
    d.
Proof.
  unfold MaxrollParser.determineBoardRotation.
  destruct (List.filter _ nodes); reflexivity.
Qed.

Lemma unqualified_skipped (d : Dimensions.t) (n : Node.t) (rest : list Node.t) :
  ~ Spec.qualifies d n ->
  MaxrollParser.determineBoardRotation (n :: rest) d =
  MaxrollParser.determineBoardRotation rest d.
Proof.
  intros Hn. rewrite !determineBoardRotation_loop. simpl.
  destruct (Node.isGate n) eqn:Hgate; simpl; [|reflexivity].
  destruct (Node.gateEdge n) as [v|] eqn:Hedge; simpl; [|reflexivity].
  rewrite Hedge.
  destruct (MaxrollParser.getDataEdge (Node.gridPosition n) d) as [e|] eqn:He;
    [|reflexivity].
  exfalso. apply Hn. repeat split; [exact Hgate|now rewrite Hedge|].
  apply getDataEdge_Some in He. eapply dataEdge_onBoundary, He.
Qed.

Lemma skip_unqualified (d : Dimensions.t) (n : Node.t) (rest : list Node.t) :
  ~ Spec.qualifies d n ->
  ((exists pre gate post visual data,
      rest = pre ++ gate :: post /\
      Forall (fun n => ~ Spec.qualifies d n) pre /\
      Node.isGate gate = true /\
      Node.gateEdge gate = Some visual /\
      Spec.dataEdge d (Node.gridPosition gate) data /\
      MaxrollParser.determineBoardRotation rest d =
        ((Spec.index visual - ((Spec.index data + 2) mod 4) + 4) mod 4) * 90)
   \/
   (Forall (fun n => ~ Spec.qualifies d n) rest /\
    MaxrollParser.determineBoardRotation rest d = 0)) ->
  ((exists pre gate post visual data,
      n :: rest = pre ++ gate :: post /\
      Forall (fun n => ~ Spec.qualifies d n) pre /\
      Node.isGate gate = true /\
      Node.gateEdge gate = Some visual /\
      Spec.dataEdge d (Node.gridPosition gate) data /\
      MaxrollParser.determineBoardRotation (n :: rest) d =
        ((Spec.index visual - ((Spec.index data + 2) mod 4) + 4) mod 4) * 90)
   \/
   (Forall (fun n => ~ Spec.qualifies d n) (n :: rest) /\
    MaxrollParser.determineBoardRotation (n :: rest) d = 0)).
Proof.
  intros Hn IH. rewrite (unqualified_skipped d n rest Hn).
  destruct IH as [(pre & g & post & v & e & -> & Hpre & Hr)|[Hall H0]].
  - left. exists (n :: pre), g, post, v, e.
    split; [reflexivity|]. split; [now constructor|exact Hr].
  - right. split; [now constructor|exact H0].
Qed.

(** C1.  The rotation of a board parsed by the Maxroll extractor is
    [determineBoardRotation] of its nodes and Dimensions.  For any nodes
    and Dimensions: either some gate qualifies, that is, it has an edge
    direction and its GridPosition touches the boundary of the Dimensions;
    then the result is the rotation read off the first such gate in node
    order, the index of its edge direction minus the index opposite to its
    data edge (North, South, West, East in this priority), modulo 4, times
    90.  Or no gate qualifies, and the result is 0. *)
Theorem determineBoardRotation_first_qualifying_gate :
  (forall boardEl boardIndex,
     let board := MaxrollParser.parseBoard boardEl boardIndex in
     Board.rotation board =
       MaxrollParser.determineBoardRotation (Board.nodes board)
                                            (Board.dimensions board)) /\
  (forall nodes d,
     (exists pre gate post visual data,
        nodes = pre ++ gate :: post /\
        Forall (fun n => ~ Spec.qualifies d n) pre /\
        Node.isGate gate = true /\
        Node.gateEdge gate = Some visual /\
        Spec.dataEdge d (Node.gridPosition gate) data /\
        MaxrollParser.determineBoardRotation nodes d =
          ((Spec.index visual - ((Spec.index data + 2) mod 4) + 4) mod 4) * 90)
     \/
     (Forall (fun n => ~ Spec.qualifies d n) nodes /\
      MaxrollParser.determineBoardRotation nodes d = 0)).
Proof.
  split; [intros boardEl boardIndex; reflexivity|].
  intros nodes d. induction nodes as [|n rest IH].
  - right. split; [constructor|reflexivity].
  - destruct (Node.isGate n) eqn:Hgate.
    + destruct (Node.gateEdge n) as [v|] eqn:Hedge.
      * destruct (MaxrollParser.getDataEdge (Node.gridPosition n) d)
          as [e|] eqn:He.
        -- left. exists [], n, rest, v, e. simpl.
           repeat split; auto.
           ++ now apply getDataEdge_Some.
           ++ rewrite determineBoardRotation_loop. simpl.
              rewrite Hgate, Hedge. simpl. rewrite He, Hedge.
              apply calculateRotation_rotationFrom.
        -- apply skip_unqualified; [|exact IH].
           intros (_ & _ & Hb). now apply getDataEdge_None in He.
      * apply skip_unqualified; [|exact IH].
        intros (_ & [v Hv] & _). congruence.
    + apply skip_unqualified; [|exact IH]. intros (Hg & _). congruence.
Qed.

(** The 3 by 3 board with a gate in the middle of the top row: an edge
    direction SOUTH gives 0 degrees and NORTH gives 180 degrees. *)
Example threeByThree_rotation :
  Board.rotation (MaxrollParser.parseBoard (Samples.threeByThree "d4t-s") 1) = 0 /\
  Board.rotation (MaxrollParser.parseBoard (Samples.threeByThree "d4t-n") 1) = 180.
Proof. split; reflexivity. Qed.

(** ** Gate connections are not computed for Maxroll *)

Lemma maxroll_parseNodeElement_connectsTo (element : Element.t) (node : Node.t) :
  MaxrollParser.parseNodeElement element = Some node ->
  Node.connectsTo node = None.
Proof.
  unfold MaxrollParser.parseNodeElement.
  destruct (MaxrollParser.parsePosition _) as [parsed|]; [|discriminate].
  destruct (ParsedPosition.finite parsed); [|discriminate].
  now intros [= <-].
Qed.

Lemma maxroll_parseBoards_connectsTo (boardElements : list BoardElement.t)
    (index : Z) (board : Board.t) (node : Node.t) :
  board ∈ MaxrollParser.parseBoards_from index boardElements ->
  node ∈ Board.nodes board ->
  Node.connectsTo node = None.
Proof.
  revert index. induction boardElements as [|boardEl rest IH]; intros index.
  - simpl. intros H. now apply elem_of_nil in H.
  - simpl. rewrite elem_of_app. intros [Hin|Hin] Hnode.
    + destruct (0 <? _); [|now apply elem_of_nil in Hin].
      apply list_elem_of_singleton in Hin. subst board. simpl in Hnode.
      unfold MaxrollParser.parseNodes in Hnode.
      apply list_elem_of_omap in Hnode. destruct Hnode as (element & _ & Hel).
      eapply maxroll_parseNodeElement_connectsTo, Hel.
    + eapply IH; eauto.
Qed.

(** C5.  [calculateGateConnections] of the Maxroll extractor returns the
    boards it is given, whatever they are, and every node of every board
    that the extractor parsed from a page, gates included, is still
    without a connection afterwards, in the node list and through the
    grid. *)
Theorem maxroll_gates_stay_unconnected :
  (forall boards, MaxrollParser.calculateGateConnections boards = boards) /\
  (forall page board,
     board ∈ MaxrollParser.calculateGateConnections
               (MaxrollParser.parseAllBoards page) ->
     (forall node, node ∈ Board.nodes board -> Node.isGate node = true ->
                   Node.connectsTo node = None) /\
     (forall row col node,
        MaxrollParser.getNodeAt (Board.nodes board) (Board.grid board) row col
          = Some node ->
        Node.connectsTo node = None)).
Proof.
  split; [reflexivity|].
  intros page board Hboard.
  unfold MaxrollParser.calculateGateConnections, MaxrollParser.parseAllBoards
    in Hboard.
  destruct page as [boardElements|]; [|now apply elem_of_nil in Hboard].
  assert (Hall : forall node, node ∈ Board.nodes board ->
                              Node.connectsTo node = None).
  { intros node. eapply maxroll_parseBoards_connectsTo, Hboard. }
  split.
  - intros node Hnode _. now apply Hall.
  - intros row col node Hget. apply Hall.
    unfold MaxrollParser.getNodeAt, GridOps.getNodeAt in Hget.
    destruct (Board.grid board !! (row, col)) as [i|]; [|discriminate].
    simpl in Hget. eapply list_elem_of_lookup_2, Hget.
Qed.

(** The gate of the 3 by 3 sample board has no connection. *)
Lemma maxroll_gates_stay_unconnected_witness :
  exists gate,
    Board.nodes (MaxrollParser.parseBoard (Samples.threeByThree "d4t-s") 1)
      !! 1%nat = Some gate /\
    Node.isGate gate = true /\
    Node.gateEdge gate = Some SOUTH /\
    Node.connectsTo gate = None.
Proof.
  assert (Hboard :
            MaxrollParser.parseBoard (Samples.threeByThree "d4t-s") 1
            ∈ MaxrollParser.calculateGateConnections
                (MaxrollParser.parseAllBoards
                   (Some [Samples.threeByThree "d4t-s"]))).
  { apply list_elem_of_lookup. exists 0%nat. reflexivity. }
  destruct (proj2 maxroll_gates_stay_unconnected _ _ Hboard) as [Hnodes _].
  eexists. split; [reflexivity|]. split; [reflexivity|].
  split; [reflexivity|].
  apply Hnodes; [|reflexivity].
  apply list_elem_of_lookup. exists 1%nat. reflexivity.
Defined.

(** ** Dimensions of a grid *)

(** C7, as the code has it.  For a grid that is not empty the Dimensions
    satisfy rows = maxRow-minRow+1 and cols = maxCol-minCol+1, every
    occupied position lies between the bounds and each bound is the row or
    column of an occupied position.  The all-zero Dimensions are returned
    exactly for the empty grid.  Both parser objects compute the same. *)
Theorem getGridDimensions_of_grid (grid : Grid) :
  let d := ParagonParser.getGridDimensions grid in
  (grid <> ∅ ->
   Dimensions.rows d = Dimensions.maxRow d - Dimensions.minRow d + 1 /\
   Dimensions.cols d = Dimensions.maxCol d - Dimensions.minCol d + 1 /\
   (forall r c, is_Some (grid !! (r, c)) ->
      Dimensions.minRow d <= r <= Dimensions.maxRow d /\
      Dimensions.minCol d <= c <= Dimensions.maxCol d) /\
   (exists c, is_Some (grid !! (Dimensions.minRow d, c))) /\
   (exists c, is_Some (grid !! (Dimensions.maxRow d, c))) /\
   (exists r, is_Some (grid !! (r, Dimensions.minCol d))) /\
   (exists r, is_Some (grid !! (r, Dimensions.maxCol d)))) /\
  (d = Dimensions.mk 0 0 0 0 0 0 <-> grid = ∅) /\
  MaxrollParser.getGridDimensions grid = d.
Proof.
  intros d. subst d.
  unfold ParagonParser.getGridDimensions, MaxrollParser.getGridDimensions,
    GridOps.getGridDimensions.
  pose proof (positions_empty grid) as Hempty.
  pose proof (row_occupied grid) as Hrow.
  pose proof (col_occupied grid) as Hcol.
  pose proof (positions_occupied grid) as Hocc.
  destruct (GridOps.positions grid) as [|p ps] eqn:Hpos.
  - split; [|split; [|reflexivity]].
    + intros Hne. exfalso. apply Hne. now apply Hempty.
    + split; [intros _; now apply Hempty|reflexivity].
  - destruct (Math_min_spec p.1 (ps.*1)) as [Hminr_in Hminr].
    destruct (Math_max_spec p.1 (ps.*1)) as [Hmaxr_in Hmaxr].
    destruct (Math_min_spec p.2 (ps.*2)) as [Hminc_in Hminc].
    destruct (Math_max_spec p.2 (ps.*2)) as [Hmaxc_in Hmaxc].
    change (p.1 :: ps.*1) with ((p :: ps).*1) in *.
    change (p.2 :: ps.*2) with ((p :: ps).*2) in *.
    split; [|split; [|reflexivity]].
    + intros _. simpl.
      split; [reflexivity|]. split; [reflexivity|].
      split; [|split; [|split; [|split]]].
      * intros r c Hrc.
        pose proof (occupied_within_dimensions grid r c Hrc) as Hin.
        unfold GridOps.getGridDimensions in Hin. rewrite Hpos in Hin.
        exact Hin.
      * now apply Hrow.
      * now apply Hrow.
      * now apply Hcol.
      * now apply Hcol.
    + split.
      * intros [= H1 H2 H3 H4 H5 H6]. exfalso.
        assert (Hp : p.1 ∈ (p :: ps).*1) by apply list_elem_of_here.
        specialize (Hminr _ Hp). specialize (Hmaxr _ Hp). lia.
      * intros Hg. apply Hempty in Hg. discriminate.
Qed.

(** A grid with nodes at (0,10) and (1,1). *)
Lemma getGridDimensions_of_grid_witness :
  let grid : Grid := <[(0, 10) := 0%nat]> (<[(1, 1) := 1%nat]> ∅) in
  let d := ParagonParser.getGridDimensions grid in
  d = Dimensions.mk 0 1 1 10 2 10 /\
  Dimensions.rows d = Dimensions.maxRow d - Dimensions.minRow d + 1 /\
  Dimensions.cols d = Dimensions.maxCol d - Dimensions.minCol d + 1.
Proof.
  intros grid d. split; [reflexivity|].
  assert (Hne : grid <> ∅).
  { intros H. apply (f_equal (fun m : Grid => m !! (0, 10))) in H.
    vm_compute in H. discriminate. }
  destruct (proj1 (getGridDimensions_of_grid grid) Hne) as (Hrows & Hcols & _).
  split; [exact Hrows|exact Hcols].
Defined.

(** C7 as stated fails on the empty grid: the all-zero Dimensions have
    rows = 0 and cols = 0, whereas maxRow-minRow+1 = maxCol-minCol+1 = 1. *)
Lemma empty_grid_breaks_row_count :
  let d := ParagonParser.getGridDimensions ∅ in
  d = Dimensions.mk 0 0 0 0 0 0 /\
  Dimensions.rows d <> Dimensions.maxRow d - Dimensions.minRow d + 1 /\
  Dimensions.cols d <> Dimensions.maxCol d - Dimensions.minCol d + 1 /\
  MaxrollParser.getGridDimensions ∅ = d.
Proof. repeat split; discriminate. Qed.

(** ** Building the grid *)

Lemma buildGrid_from_lookup (nodes : list Node.t) (i : nat) (grid : Grid)
    (k : Z * Z) (v : nat) :
  GridOps.buildGrid_from i nodes grid !! k = Some v <->
  (exists j, v = (i + j)%nat /\ Spec.lastAt nodes k j) \/
  (grid !! k = Some v /\ forall j m, nodes !! j = Some m -> GridOps.key m <> k).
Proof.
  revert i grid. induction nodes as [|n rest IH]; intros i grid; simpl.
  - split.
    + intros H. right. split; [exact H|]. intros j m Hj. discriminate.
    + intros [(j & _ & m & Hj & _)|[H _]]; [discriminate|exact H].
  - rewrite IH. split.
    + intros [(j & -> & m & Hj & Hk & Hlast)|[Hins Hnone]].
      * left. exists (S j). split; [lia|].
        exists m. split; [exact Hj|]. split; [exact Hk|].
        intros [|j'] m' Hlt Hj'; [lia|].
        simpl in Hj'. apply (Hlast j' m'); [lia|exact Hj'].
      * destruct (decide (GridOps.key n = k)) as [Heq|Hne].
        -- rewrite Heq, lookup_insert_eq in Hins. injection Hins as <-.
           left. exists 0%nat. split; [lia|].
           exists n. split; [reflexivity|]. split; [exact Heq|].
           intros [|j'] m' Hlt Hj'; [lia|]. simpl in Hj'.
           eapply Hnone, Hj'.
        -- rewrite lookup_insert_ne in Hins by exact Hne.
           right. split; [exact Hins|].
           intros [|j'] m' Hj'; simpl in Hj'.
           ++ injection Hj' as <-. exact Hne.
           ++ eapply Hnone, Hj'.
    + intros [(j & -> & m & Hj & Hk & Hlast)|[Hgrid Hnone]].
      * destruct j as [|j]; simpl in Hj.
        -- injection Hj as <-. right. split.
           ++ rewrite Hk, lookup_insert_eq. f_equal. lia.
           ++ intros j m' Hj'. apply (Hlast (S j) m'); [lia|exact Hj'].
        -- left. exists j. split; [lia|].
           exists m. split; [exact Hj|]. split; [exact Hk|].
           intros j' m' Hlt Hj'. apply (Hlast (S j') m'); [lia|exact Hj'].
      * right. split.
        -- rewrite lookup_insert_ne; [exact Hgrid|].
           apply (Hnone 0%nat n). reflexivity.
        -- intros j m Hj. apply (Hnone (S j) m). exact Hj.
Qed.

Lemma buildGrid_from_dom (nodes : list Node.t) (i : nat) (grid : Grid) :
  dom (GridOps.buildGrid_from i nodes grid) =
  dom grid ∪ list_to_set (GridOps.key <$> nodes).
Proof.
  revert i grid. induction nodes as [|n rest IH]; intros i grid.
  - simpl. now rewrite union_empty_r_L.
  - simpl GridOps.buildGrid_from. rewrite IH, dom_insert_L.
    rewrite fmap_cons, list_to_set_cons.
    rewrite (union_comm_L {[GridOps.key n]} (dom grid)).
    now rewrite union_assoc_L.
Qed.

Lemma size_list_to_set_le (l : list (Z * Z)) :
  (size (list_to_set l : gset (Z * Z)) <= length l)%nat /\
  (size (list_to_set l : gset (Z * Z)) = length l -> NoDup l).
Proof.
  induction l as [|x l [IHle IHeq]].
  - rewrite list_to_set_nil, size_empty. split; [simpl; lia|constructor].
  - rewrite list_to_set_cons. simpl length.
    destruct (decide (x ∈ l)) as [Hin|Hnin].
    + assert (H : ({[x]} ∪ list_to_set l : gset (Z * Z)) = list_to_set l).
      { apply subseteq_union_1_L. apply singleton_subseteq_l.
        now apply elem_of_list_to_set. }
      rewrite H. split; lia.
    + rewrite size_union.
      * rewrite size_singleton.
        split; [lia|]. intros Heq. constructor; [exact Hnin|].
        apply IHeq. lia.
      * apply disjoint_singleton_l. now rewrite elem_of_list_to_set.
Qed.

(** C6, as the code has it.  The node list of a Mobalytics board is its
    glyph sockets, then its plain nodes, then its gates, and its grid is
    built from that list.  [buildGrid] keeps for every GridPosition the
    last node of the list that sits there, so a later node replaces an
    earlier one at the same GridPosition; the grid has as many cells as
    the list has nodes exactly when the GridPositions are pairwise
    distinct. *)
Theorem buildGrid_keeps_last_node :
  (forall container boardIndex,
     let board := ParagonParser.parseBoard container boardIndex in
     Board.nodes board =
       ParagonParser.parseGlyphSockets container
         ++ ParagonParser.parseNodes container
         ++ ParagonParser.parseGates container /\
     Board.grid board = ParagonParser.buildGrid (Board.nodes board)) /\
  (forall nodes k i,
     ParagonParser.buildGrid nodes !! k = Some i <-> Spec.lastAt nodes k i) /\
  (forall nodes,
     size (ParagonParser.buildGrid nodes) = length nodes <->
     NoDup (GridOps.key <$> nodes)) /\
  MaxrollParser.buildGrid = ParagonParser.buildGrid.
Proof.
  split; [intros; split; reflexivity|].
  split; [|split; [|reflexivity]].
  - intros nodes k i.
    unfold ParagonParser.buildGrid, GridOps.buildGrid.
    rewrite buildGrid_from_lookup. split.
    + intros [(j & -> & H)|[H _]]; [exact H|].
      rewrite lookup_empty in H. discriminate.
    + intros H. left. exists i. split; [reflexivity|exact H].
  - intros nodes. unfold ParagonParser.buildGrid, GridOps.buildGrid.
    rewrite <- size_dom, buildGrid_from_dom, dom_empty_L, union_empty_l_L.
    split.
    + intros H. apply size_list_to_set_le.
      now rewrite length_fmap.
    + intros H. rewrite size_list_to_set by exact H. now rewrite length_fmap.
Qed.

(** C6 as stated fails on a Mobalytics board whose glyph-socket backdrop
    lies where a gate is: the socket and the gate are two nodes of the
    board at GridPosition (0,10), and the grid holds only the gate. *)
Lemma socket_and_gate_share_a_cell :
  let board := ParagonParser.parseBoard Samples.overlaidBoard 1 in
  exists socket gate,
    Board.nodes board !! 0%nat = Some socket /\
    Board.nodes board !! 2%nat = Some gate /\
    Node.isGlyph socket = true /\ Node.isGate gate = true /\
    Node.gridPosition socket = GridPosition.mk 0 10 /\
    Node.gridPosition gate = GridPosition.mk 0 10 /\
    Board.grid board !! (0, 10) = Some 2%nat /\
    length (Board.nodes board) = 3%nat /\
    size (Board.grid board) = 2%nat /\
    ~ NoDup (Node.gridPosition <$> Board.nodes board).
Proof.
  intros board. eexists. eexists.
  split; [reflexivity|]. split; [reflexivity|].
  split; [reflexivity|]. split; [reflexivity|].
  split; [reflexivity|]. split; [reflexivity|].
  split; [reflexivity|]. split; [reflexivity|].
  split; [reflexivity|].
  intros H. vm_compute in H. apply NoDup_cons in H. destruct H as [Hnin _].
  apply Hnin. apply list_elem_of_further, list_elem_of_here.
Qed.

(** ** Rounding positions to the grid *)

Lemma Math_round_nearest (x : Q) : Spec.nearest x (JS.Math_round x).
Proof.
  unfold Spec.nearest, JS.Math_round.
  pose proof (Qfloor_le (x + (1 # 2))) as Hle.
  pose proof (Qlt_floor (x + (1 # 2))) as Hlt.
  rewrite inject_Z_plus in Hlt. change (inject_Z 1) with 1%Q in Hlt.
  split; lra.
Qed.

Lemma nearest_unique (x : Q) (k : Z) :
  Spec.nearest x k -> JS.Math_round x = k.
Proof.
  unfold Spec.nearest, JS.Math_round. intros [Hlo Hhi].
  pose proof (Qfloor_le (x + (1 # 2))) as Hle.
  pose proof (Qlt_floor (x + (1 # 2))) as Hlt.
  assert (H1 : (inject_Z k < inject_Z (Qfloor (x + (1 # 2)) + 1))%Q) by lra.
  assert (H2 : (inject_Z (Qfloor (x + (1 # 2))) < inject_Z (k + 1))%Q).
  { rewrite inject_Z_plus. change (inject_Z 1) with 1%Q. lra. }
  rewrite <- Zlt_Qlt in H1, H2. lia.
Qed.

Lemma snap_nearest (spacing t : Q) (k : Z) :
  (0 < spacing)%Q ->
  (Qabs (t - inject_Z k * spacing) < spacing / 2)%Q ->
  Spec.nearest (t / spacing) k.
Proof.
  intros Hs Habs. apply Qabs_Qlt_condition in Habs. destruct Habs as [Hlo Hhi].
  unfold Spec.nearest.
  assert (Hq : (t / spacing * spacing == t)%Q).
  { field. intros H0. rewrite H0 in Hs. now apply Qlt_irrefl in Hs. }
  assert (Hhalf : (spacing / 2 == spacing * (1 # 2))%Q) by field.
  rewrite Hhalf in Hlo, Hhi.
  split.
  - apply Qnot_lt_le. intros Hc.
    assert (H : (t / spacing * spacing < (inject_Z k - (1 # 2)) * spacing)%Q).
    { apply Qmult_lt_compat_r; assumption. }
    rewrite Hq in H. lra.
  - apply Qnot_le_lt. intros Hc.
    assert (H : ((inject_Z k + (1 # 2)) * spacing <= t / spacing * spacing)%Q).
    { apply Qmult_le_compat_r; [assumption|]. now apply Qlt_le_weak. }
    rewrite Hq in H. lra.
Qed.

(** C8, as the code has it.  [positionToGrid] rounds top/spacing and
    left/spacing to the nearest integer, a half going upwards, with spacing
    8 for Mobalytics and 1 for Maxroll.  A Position within less than half
    the spacing of a grid point on both axes maps to that grid point, so two
    Positions that are both that close to the same grid point map to the
    same GridPosition. *)
Theorem positionToGrid_nearest_grid_point (p : Position.t) :
  (Spec.nearest (Position.top p / 8)
     (GridPosition.row (ParagonParser.positionToGrid p)) /\
   Spec.nearest (Position.left p / 8)
     (GridPosition.col (ParagonParser.positionToGrid p))) /\
  (Spec.nearest (Position.top p / 1)
     (GridPosition.row (MaxrollParser.positionToGrid p)) /\
   Spec.nearest (Position.left p / 1)
     (GridPosition.col (MaxrollParser.positionToGrid p))) /\
  (forall q k j,
     Spec.snapsTo 8 p k j -> Spec.snapsTo 8 q k j ->
     ParagonParser.positionToGrid p = GridPosition.mk k j /\
     ParagonParser.positionToGrid q = ParagonParser.positionToGrid p) /\
  (forall q k j,
     Spec.snapsTo 1 p k j -> Spec.snapsTo 1 q k j ->
     MaxrollParser.positionToGrid p = GridPosition.mk k j /\
     MaxrollParser.positionToGrid q = MaxrollParser.positionToGrid p).
Proof.
  split; [split; apply Math_round_nearest|].
  split; [split; apply Math_round_nearest|].
  split.
  - assert (Hsnap : forall r k j, Spec.snapsTo 8 r k j ->
                      ParagonParser.positionToGrid r = GridPosition.mk k j).
    { intros r k j [Ht Hl]. unfold ParagonParser.positionToGrid. f_equal.
      - apply nearest_unique, snap_nearest; [reflexivity|exact Ht].
      - apply nearest_unique, snap_nearest; [reflexivity|exact Hl]. }
    intros q k j Hp Hq. rewrite (Hsnap p k j Hp), (Hsnap q k j Hq). auto.
  - assert (Hsnap : forall r k j, Spec.snapsTo 1 r k j ->
                      MaxrollParser.positionToGrid r = GridPosition.mk k j).
    { intros r k j [Ht Hl]. unfold MaxrollParser.positionToGrid. f_equal.
      - apply nearest_unique, snap_nearest; [reflexivity|exact Ht].
      - apply nearest_unique, snap_nearest; [reflexivity|exact Hl]. }
    intros q k j Hp Hq. rewrite (Hsnap p k j Hp), (Hsnap q k j Hq). auto.
Qed.

(** Two Mobalytics positions near the grid point of row 0 and column 10. *)
Lemma positionToGrid_nearest_grid_point_witness :
  let p := Position.mk 79 1 in
  let q := Position.mk (163 # 2) (-3) in
  ParagonParser.positionToGrid p = GridPosition.mk 0 10 /\
  ParagonParser.positionToGrid q = ParagonParser.positionToGrid p.
Proof.
  intros p q.
  apply (proj1 (proj2 (proj2 (positionToGrid_nearest_grid_point p)))).
  - split; reflexivity.
  - split; reflexivity.
Defined.

(** C8 as stated fails: at spacing 8 the tops 3 and 4 differ by less than
    4 and yet round to rows 0 and 1; at spacing 1 the tops 0.4 and 0.6
    differ by less than 0.5 and round to rows 0 and 1. *)
Lemma close_positions_in_different_cells :
  (let p := Position.mk 0 3 in
   let q := Position.mk 0 4 in
   (Qabs (Position.left p - Position.left q) < ParagonParser.GRID_SPACING / 2)%Q /\
   (Qabs (Position.top p - Position.top q) < ParagonParser.GRID_SPACING / 2)%Q /\
   ParagonParser.positionToGrid p = GridPosition.mk 0 0 /\
   ParagonParser.positionToGrid q = GridPosition.mk 1 0 /\
   ParagonParser.positionToGrid p <> ParagonParser.positionToGrid q) /\
  (let p := Position.mk 0 (4 # 10) in
   let q := Position.mk 0 (6 # 10) in
   (Qabs (Position.left p - Position.left q) < MaxrollParser.GRID_SPACING / 2)%Q /\
   (Qabs (Position.top p - Position.top q) < MaxrollParser.GRID_SPACING / 2)%Q /\
   MaxrollParser.positionToGrid p = GridPosition.mk 0 0 /\
   MaxrollParser.positionToGrid q = GridPosition.mk 1 0 /\
   MaxrollParser.positionToGrid p <> MaxrollParser.positionToGrid q).
Proof. repeat split; discriminate. Qed.

(** ** Gate connections (Mobalytics) *)

Lemma lt_true (x y : Q) : JS.lt x y = true <-> (x < y)%Q.
Proof.
  unfold JS.lt. rewrite Qlt_alt. destruct (x ?= y)%Q; split; congruence.
Qed.

Lemma eq_true (x y : Q) : JS.eq x y = true <-> (x == y)%Q.
Proof. unfold JS.eq. apply Qeq_bool_iff. Qed.

Lemma getGateEdge_localEdge (p : Position.t) (e : Direction) :
  Spec.localEdge p e <-> ParagonParser.getGateEdge p = e.
Proof.
  unfold ParagonParser.getGateEdge, JS.gt.
  pose proof (eq_true (Position.top p) 0) as E1.
  pose proof (eq_true (Position.left p) 160) as E2.
  pose proof (eq_true (Position.top p) 160) as E3.
  pose proof (eq_true (Position.left p) 0) as E4.
  pose proof (lt_true (Position.top p) 40) as L1.
  pose proof (lt_true 120 (Position.left p)) as L2.
  pose proof (lt_true 120 (Position.top p)) as L3.
  unfold Spec.offCanonical.
  destruct (JS.eq (Position.top p) 0);
  [|destruct (JS.eq (Position.left p) 160);
    [|destruct (JS.eq (Position.top p) 160);
      [|destruct (JS.eq (Position.left p) 0);
        [|destruct (JS.lt (Position.top p) 40);
          [|destruct (JS.lt 120 (Position.left p));
            [|destruct (JS.lt 120 (Position.top p))]]]]]];
  (split;
   [ inversion 1; unfold Spec.offCanonical in *;
     intuition (congruence || discriminate)
   | intros <-;
     first
       [ apply Spec.canonical_top; intuition congruence
       | apply Spec.canonical_right; intuition congruence
       | apply Spec.canonical_bottom; intuition congruence
       | apply Spec.canonical_left; intuition congruence
       | apply Spec.top_below_40; unfold Spec.offCanonical;
         intuition congruence
       | apply Spec.left_above_120; unfold Spec.offCanonical;
         intuition congruence
       | apply Spec.top_above_120; unfold Spec.offCanonical;
         intuition congruence
       | apply Spec.otherwise_left; unfold Spec.offCanonical;
         intuition congruence ] ]).
Qed.

Lemma rotateDirection_quarters (edge : Direction) (m : Z) :
  ParagonParser.rotateDirection edge (90 * m) =
  Some (Nat.iter (Z.to_nat (m mod 4)) Spec.clockwise edge).
Proof.
  rewrite rotateDirection_mod.
  assert (H : (90 * m) mod 360 = 90 * (m mod 4)).
  { Z.to_euclidean_division_equations. lia. }
  rewrite H.
  assert (Hm : In (m mod 4) [0; 1; 2; 3]).
  { simpl. Z.to_euclidean_division_equations. lia. }
  simpl in Hm.
  destruct Hm as [<-|[<-|[<-|[<-|[]]]]]; destruct edge; reflexivity.
Qed.

Lemma expectedPosition_neighbour (current : Position.t) (e : Direction) :
  ParagonParser.expectedPosition current (Some e) = Spec.neighbour current e.
Proof. destruct e; reflexivity. Qed.

Lemma atExpected_adjacent (current : Board.t) (expected : Position.t)
    (b : Board.t) :
  ParagonParser.atExpected current expected b = true <->
  Spec.adjacent current expected b.
Proof.
  unfold ParagonParser.atExpected, Spec.adjacent, Spec.within.
  destruct (Board.position b) as [p|].
  - destruct (Z.eqb_spec (Board.index b) (Board.index current)) as [Heq|Hne].
    + split; [discriminate|]. intros (p' & _ & Hne & _). contradiction.
    + rewrite andb_true_iff, !lt_true. split.
      * intros H. exists p. auto.
      * intros (p' & [= <-] & _ & H). exact H.
  - split; [discriminate|]. intros (p' & Hp & _). discriminate.
Qed.

Lemma find_first {A} (f : A -> bool) (l : list A) :
  match List.find f l with
  | Some x => exists pre post,
                l = pre ++ x :: post /\ f x = true /\
                Forall (fun y => f y = false) pre
  | None => Forall (fun y => f y = false) l
  end.
Proof.
  induction l as [|a l IH]; simpl.
  - constructor.
  - destruct (f a) eqn:Ha.
    + exists [], l. auto.
    + destruct (List.find f l) as [x|].
      * destruct IH as (pre & post & -> & Hx & Hpre).
        exists (a :: pre), post. auto.
      * now constructor.
Qed.

Lemma label_source (b : Board.t) :
  JSString.stripLeadingDigits
    (JSString.or_else (Board.fullName b) (Board.name b)) = Spec.label b.
Proof.
  unfold Spec.label, JSString.or_else.
  destruct (String.eqb_spec (Board.fullName b) "") as [Heq|Hne];
    destruct (decide (Board.fullName b = "")); congruence.
Qed.

Lemma whole_unrounded (boards : list Board.t) (current : Position.t)
    (e : Direction) :
  Forall Spec.onWholes boards ->
  Spec.whole current ->
  Spec.unrounded boards (Spec.neighbour current e).
Proof.
  intros Hboards (cl & ct & Hcl & Hct & Hbl & Hbt).
  assert (Hbound : 2 ^ 50 = 1125899906842624 /\ 2 ^ 53 = 9007199254740992)
    by (split; reflexivity).
  destruct Hbound as [H50 H53]. rewrite H50 in Hbl, Hbt.
  assert (Hexp : exists el et : Z,
            (Position.left (Spec.neighbour current e) == inject_Z el)%Q /\
            (Position.top (Spec.neighbour current e) == inject_Z et)%Q /\
            Z.abs el <= 1125899906842624 + 168 /\
            Z.abs et <= 1125899906842624 + 168).
  { destruct e; simpl.
    - exists cl, (ct - 168). rewrite Hcl, Hct.
      split; [reflexivity|]. split; [|lia].
      unfold Qeq, Qminus, Qplus, Qopp, inject_Z. simpl. lia.
    - exists (cl + 168), ct. rewrite Hcl, Hct.
      split; [|split; [reflexivity|lia]].
      unfold Qeq, Qplus, inject_Z. simpl. lia.
    - exists cl, (ct + 168). rewrite Hcl, Hct.
      split; [reflexivity|]. split; [|lia].
      unfold Qeq, Qplus, inject_Z. simpl. lia.
    - exists (cl - 168), ct. rewrite Hcl, Hct.
      split; [|split; [reflexivity|lia]].
      unfold Qeq, Qminus, Qplus, Qopp, inject_Z. simpl. lia. }
  destruct Hexp as (el & et & Hel & Het & Hbel & Hbet).
  unfold Spec.unrounded, Spec.representable. rewrite H53.
  split; [exists el; split; [exact Hel|lia]|].
  split; [exists et; split; [exact Het|lia]|].
  eapply Forall_impl; [exact Hboards|]. simpl.
  intros b Hb p Hp. destruct (Hb p Hp) as (pl & pt & Hpl & Hpt & Hbpl & Hbpt).
  rewrite H50 in Hbpl, Hbpt. split.
  - exists (pl - el). split; [|lia]. rewrite Hel, Hpl.
    unfold Qeq, Qminus, Qplus, Qopp, inject_Z. simpl. lia.
  - exists (pt - et). split; [|lia]. rewrite Het, Hpt.
    unfold Qeq, Qminus, Qplus, Qopp, inject_Z. simpl. lia.
Qed.

(** C4, as the code has it.  Take boards whose Positions are whole
    numbers of at most 2^50 in magnitude, so that no sum or difference
    formed below is rounded, and a gate of a board that has a Position
    and whose rotation is a multiple of 90.  Its local edge comes from
    the four canonical gate positions, else from the thresholds tried in
    order (top below 40, left above 120, top above 120, else LEFT), which
    need not give the nearest edge; the world-facing direction is that
    edge turned clockwise rotation/90 times; the neighbour is expected one
    spacing (168) away from the board's own Position in that direction.
    After [calculateGateConnections] the gate's [connectsTo] holds the
    index and the label of the first board in page order that has another
    index and a Position within 10 of the expected one on both axes, the
    label being the full name (the name, if the full name is empty)
    without leading digits; it is null when there is no such board. *)
Theorem gate_connects_to_adjacent_board
    (boards : list Board.t) (i j : nat) (board : Board.t) (node : Node.t)
    (current : Position.t) (m : Z) :
  Forall Spec.onWholes boards ->
  boards !! i = Some board ->
  Board.nodes board !! j = Some node ->
  Node.isGate node = true ->
  Board.position board = Some current ->
  Board.rotation board = 90 * m ->
  exists localEdge board' node',
    Spec.localEdge (Node.position node) localEdge /\
    let world := Nat.iter (Z.to_nat (m mod 4)) Spec.clockwise localEdge in
    let expected := Spec.neighbour current world in
    Spec.unrounded boards expected /\
    ParagonParser.calculateGateConnections boards !! i = Some board' /\
    Board.nodes board' !! j = Some node' /\
    ((exists pre b post,
        boards = pre ++ b :: post /\
        Forall (fun b' => ~ Spec.adjacent board expected b') pre /\
        Spec.adjacent board expected b /\
        Node.connectsTo node' =
          Some {| Connection.index := Board.index b;
                  Connection.name := Spec.label b |})
     \/
     (Forall (fun b' => ~ Spec.adjacent board expected b') boards /\
      Node.connectsTo node' = None)).
Proof.
  intros Hwhole Hboard Hnode Hgate Hpos Hrot.
  exists (ParagonParser.getGateEdge (Node.position node)).
  eexists. eexists.
  split; [now apply getGateEdge_localEdge|].
  cbv zeta.
  split; [|split; [|split]].
  - apply whole_unrounded; [exact Hwhole|].
    rewrite Forall_lookup in Hwhole. exact (Hwhole i board Hboard current Hpos).
  - unfold ParagonParser.calculateGateConnections.
    rewrite list_lookup_fmap, Hboard. reflexivity.
  - simpl. rewrite list_lookup_fmap, Hnode. simpl. rewrite Hgate. reflexivity.
  - simpl. unfold ParagonParser.connectionOf, ParagonParser.findAdjacentBoard.
    rewrite Hpos, Hrot, rotateDirection_quarters, expectedPosition_neighbour.
    match goal with
    | |- context [List.find ?f boards] =>
        pose proof (find_first f boards) as Hfind;
        destruct (List.find f boards) as [b|]
    end.
    + left. destruct Hfind as (pre & post & -> & Hb & Hpre).
      exists pre, b, post. split; [reflexivity|]. split; [|split].
      * eapply Forall_impl; [exact Hpre|]. simpl. intros b' Hb' Hadj.
        apply atExpected_adjacent in Hadj. congruence.
      * now apply atExpected_adjacent.
      * now rewrite label_source.
    + right. split; [|reflexivity].
      eapply Forall_impl; [exact Hfind|]. simpl. intros b' Hb' Hadj.
      apply atExpected_adjacent in Hadj. congruence.
Qed.

Lemma twoBoards_onWholes : Forall Spec.onWholes Samples.twoBoards.
Proof.
  apply Forall_lookup. intros [|[|k]] b Hb; [| |discriminate];
    vm_compute in Hb; injection Hb as <-; intros p Hp;
    vm_compute in Hp; injection Hp as <-.
  - exists 0, 0. repeat split; vm_compute; congruence.
  - exists 168, 0. repeat split; vm_compute; congruence.
Defined.

(** The gate on the right edge of a board at (0,0), rotation 0, next to a
    board at (168,0): the neighbour is expected at (168,0). *)
Lemma gate_connects_to_adjacent_board_witness :
  Spec.neighbour (Position.mk 0 0)
    (ParagonParser.getGateEdge (Node.position Samples.leftGate))
    = Position.mk 168 0 /\
  exists localEdge board' node',
    Spec.localEdge (Node.position Samples.leftGate) localEdge /\
    let world := Nat.iter (Z.to_nat (0 mod 4)) Spec.clockwise localEdge in
    let expected := Spec.neighbour (Position.mk 0 0) world in
    let board := ParagonParser.parseBoard Samples.leftBoard 1 in
    Spec.unrounded Samples.twoBoards expected /\
    ParagonParser.calculateGateConnections Samples.twoBoards !! 0%nat
      = Some board' /\
    Board.nodes board' !! 1%nat = Some node' /\
    ((exists pre b post,
        Samples.twoBoards = pre ++ b :: post /\
        Forall (fun b' => ~ Spec.adjacent board expected b') pre /\
        Spec.adjacent board expected b /\
        Node.connectsTo node' =
          Some {| Connection.index := Board.index b;
                  Connection.name := Spec.label b |})
     \/
     (Forall (fun b' => ~ Spec.adjacent board expected b') Samples.twoBoards /\
      Node.connectsTo node' = None)).
Proof.
  split; [reflexivity|].
  apply (gate_connects_to_adjacent_board Samples.twoBoards 0 1
           (ParagonParser.parseBoard Samples.leftBoard 1) Samples.leftGate
           (Position.mk 0 0) 0);
    [exact twoBoards_onWholes|reflexivity..].
Defined.

(** The thresholds need not give the nearest edge: at (150, 39), which is
    none of the canonical positions, the edge is TOP although the right
    edge is nearer. *)
Example threshold_edge_need_not_be_nearest :
  ParagonParser.getGateEdge (Position.mk 150 39) = TOP /\
  (Spec.distanceTo (Position.mk 150 39) RIGHT
   < Spec.distanceTo (Position.mk 150 39) TOP)%Q.
Proof. split; reflexivity. Qed.

(** When the second board is two spacings away the gate stays without a
    connection. *)
Example gate_without_neighbour :
  exists board gate,
    ParagonParser.calculateGateConnections Samples.apartBoards !! 0%nat
      = Some board /\
    Board.nodes board !! 1%nat = Some gate /\
    Node.isGate gate = true /\ Node.connectsTo gate = None.
Proof. eexists. eexists. repeat split. Qed.

(** C4 as stated fails on the stored name: the gate connects to board 2,
    whose name is "Castle", and the name kept in [connectsTo] is
    "Castle / Exploit", the full name "2Castle / Exploit" without its
    leading digits. *)
Lemma connection_keeps_label_not_name :
  exists left right gate,
    ParagonParser.calculateGateConnections Samples.twoBoards !! 0%nat
      = Some left /\
    ParagonParser.calculateGateConnections Samples.twoBoards !! 1%nat
      = Some right /\
    Board.nodes left !! 1%nat = Some gate /\
    Node.isGate gate = true /\
    Board.position right = Some (Position.mk 168 0) /\
    Board.index right = 2 /\
    Board.name right = "Castle" /\
    Node.connectsTo gate =
      Some {| Connection.index := 2; Connection.name := "Castle / Exploit" |} /\
    Node.connectsTo gate <>
      Some {| Connection.index := Board.index right;
              Connection.name := Board.name right |}.
Proof.
  eexists. eexists. eexists.
  split; [reflexivity|]. split; [reflexivity|]. split; [reflexivity|].
  split; [reflexivity|]. split; [reflexivity|]. split; [reflexivity|].
  split; [reflexivity|]. split; [reflexivity|].
  discriminate.
Qed.

(** ** Scanning a style string *)

Lemma numchar_not_space (c : ascii) :
  Style.is_numchar c = true -> Style.is_space c = false.
Proof.
  destruct c as [[] [] [] [] [] [] [] []]; try discriminate; reflexivity.
Qed.

Lemma literal_Some (p s r : list ascii) :
  Style.literal p s = Some r <-> s = p ++ r.
Proof.
  revert s. induction p as [|a p IH]; intros s; simpl.
  - split; [now intros [= ->]|now intros ->].
  - destruct s as [|b s]; [split; discriminate|].
    destruct (Ascii.eqb_spec a b) as [->|Hne].
    + rewrite IH. split; [now intros ->|now intros [= ->]].
    + split; [discriminate|]. intros [= Hab _]. congruence.
Qed.

Lemma span_split (f : ascii -> bool) (s : list ascii) :
  s = (Style.span f s).1 ++ (Style.span f s).2 /\
  Forall (fun c => f c = true) (Style.span f s).1 /\
  match (Style.span f s).2 with
  | [] => True
  | c :: _ => f c = false
  end.
Proof.
  induction s as [|c s (IH1 & IH2 & IH3)]; simpl.
  - repeat split. constructor.
  - destruct (f c) eqn:Hc.
    + destruct (Style.span f s) as [run rest]. simpl in *.
      split; [now f_equal|]. split; [now constructor|exact IH3].
    + simpl. repeat split; [constructor|exact Hc].
Qed.

Lemma span_app (f : ascii -> bool) (run rest : list ascii) :
  Forall (fun c => f c = true) run ->
  match rest with [] => True | c :: _ => f c = false end ->
  Style.span f (run ++ rest) = (run, rest).
Proof.
  intros Hrun Hrest. induction Hrun as [|c run Hc _ IH]; simpl.
  - destruct rest as [|c rest]; [reflexivity|]. simpl. now rewrite Hrest.
  - now rewrite Hc, IH.
Qed.

Lemma run_at_matchesAt (before : string) (spaces : bool) (after : list string)
    (s run : list ascii) :
  Spec.closes after ->
  Style.run_at before spaces after s = Some run <->
  Spec.matchesAt before spaces after s run.
Proof.
  intros Hafter. unfold Style.run_at, Spec.matchesAt. split.
  - destruct (Style.literal (Style.chars before) s) as [s1|] eqn:Hlit;
      [|discriminate].
    apply literal_Some in Hlit.
    set (s2 := if spaces then (Style.span Style.is_space s1).2 else s1).
    destruct (span_split Style.is_numchar s2) as (Hs2 & Hrun & _).
    destruct (Style.span Style.is_numchar s2) as [run' s3]. simpl in Hs2, Hrun.
    destruct run' as [|c run']; [discriminate|].
    destruct (existsb _ after) eqn:Hex; [|discriminate].
    intros [= <-]. apply existsb_exists in Hex. destruct Hex as (u & Hu & Hstart).
    unfold Style.starts_with in Hstart.
    destruct (Style.literal (Style.chars u) s3) as [rest|] eqn:Hrest;
      [|discriminate].
    apply literal_Some in Hrest.
    exists (if spaces then (Style.span Style.is_space s1).1 else []), u, rest.
    split.
    { rewrite Hlit. f_equal. rewrite <- Hrest, <- Hs2. subst s2.
      destruct spaces; [apply span_split|reflexivity]. }
    split; [destruct spaces; [apply span_split|constructor]|].
    split; [intros ->; reflexivity|].
    split; [discriminate|]. split; [exact Hrun|].
    now apply list_elem_of_In.
  - intros (ws & u & rest & -> & Hws & Hnospace & Hne & Hrun & Hu).
    rewrite (proj2 (literal_Some _ _ (ws ++ run ++ Style.chars u ++ rest)) eq_refl).
    assert (Hu' : match Style.chars u ++ rest with
                  | [] => True
                  | c :: _ => Style.is_numchar c = false
                  end).
    { unfold Spec.closes in Hafter. rewrite Forall_forall in Hafter.
      specialize (Hafter u Hu). destruct (Style.chars u); [contradiction|exact Hafter]. }
    assert (Hs2 : (if spaces
                   then (Style.span Style.is_space
                           (ws ++ run ++ Style.chars u ++ rest)).2
                   else ws ++ run ++ Style.chars u ++ rest)
                  = run ++ Style.chars u ++ rest).
    { destruct spaces.
      - rewrite span_app; [reflexivity|exact Hws|].
        destruct run as [|c run]; [contradiction|]. simpl.
        apply numchar_not_space. now inversion Hrun.
      - now rewrite (Hnospace eq_refl). }
    rewrite Hs2, span_app by assumption.
    destruct run as [|c run]; [contradiction|].
    assert (Hex : existsb (fun v => Style.starts_with v (Style.chars u ++ rest))
                    after = true).
    { apply existsb_exists. exists u. split; [now apply list_elem_of_In|].
      unfold Style.starts_with.
      now rewrite (proj2 (literal_Some _ _ rest) eq_refl). }
    now rewrite Hex.
Qed.

Lemma search_Some {A} (attempt : list ascii -> option A) (s : list ascii) (r : A) :
  Style.search attempt s = Some r <->
  exists pre rest,
    s = pre ++ rest /\ attempt rest = Some r /\
    forall pre' rest', s = pre' ++ rest' -> (length pre' < length pre)%nat ->
                       attempt rest' = None.
Proof.
  induction s as [|c s IH]; simpl.
  - destruct (attempt []) as [r0|] eqn:H0.
    + split.
      * intros [= ->]. exists [], []. repeat split; auto.
        intros pre' rest' _ Hlt. simpl in Hlt. lia.
      * intros (pre & rest & Hs & Hr & _).
        symmetry in Hs. apply app_eq_nil in Hs. destruct Hs as [-> ->].
        congruence.
    + split; [discriminate|].
      intros (pre & rest & Hs & Hr & _).
      symmetry in Hs. apply app_eq_nil in Hs. destruct Hs as [-> ->].
      congruence.
  - destruct (attempt (c :: s)) as [r0|] eqn:H0.
    + split.
      * intros [= ->]. exists [], (c :: s). repeat split; auto.
        intros pre' rest' _ Hlt. simpl in Hlt. lia.
      * intros (pre & rest & Hs & Hr & Hfirst).
        destruct pre as [|c' pre].
        -- simpl in Hs. subst rest. congruence.
        -- specialize (Hfirst [] (c :: s) eq_refl). simpl in Hfirst.
           rewrite Hfirst in H0 by lia. discriminate.
    + rewrite IH. split.
      * intros (pre & rest & -> & Hr & Hfirst).
        exists (c :: pre), rest. repeat split; auto.
        intros [|c' pre'] rest' Hs Hlt.
        -- simpl in Hs. now subst rest'.
        -- injection Hs as -> Hs. apply (Hfirst pre' rest' Hs).
           simpl in Hlt. lia.
      * intros (pre & rest & Hs & Hr & Hfirst).
        destruct pre as [|c' pre].
        -- simpl in Hs. subst rest. congruence.
        -- injection Hs as -> Hs. exists pre, rest. repeat split; auto.
           intros pre' rest' Hs' Hlt.
           apply (Hfirst (c' :: pre') rest'); [now rewrite Hs'|simpl; lia].
Qed.

Lemma search_None {A} (attempt : list ascii -> option A) (s : list ascii) :
  Style.search attempt s = None <->
  forall pre rest, s = pre ++ rest -> attempt rest = None.
Proof.
  induction s as [|c s IH]; simpl.
  - destruct (attempt []) as [r0|] eqn:H0.
    + split; [discriminate|]. intros H. rewrite (H [] [] eq_refl) in H0.
      discriminate.
    + split; [|reflexivity]. intros _ pre rest Hs.
      symmetry in Hs. apply app_eq_nil in Hs. destruct Hs as [-> ->]. exact H0.
  - destruct (attempt (c :: s)) as [r0|] eqn:H0.
    + split; [discriminate|]. intros H. rewrite (H [] (c :: s) eq_refl) in H0.
      discriminate.
    + rewrite IH. split.
      * intros H [|c' pre] rest Hs.
        -- simpl in Hs. now subst rest.
        -- injection Hs as -> Hs. now apply (H pre rest).
      * intros H pre rest Hs. apply (H (c :: pre) rest). now rewrite Hs.
Qed.

Lemma search_firstMatch (before : string) (spaces : bool) (after : list string)
    (s run : list ascii) :
  Spec.closes after ->
  Style.search (Style.run_at before spaces after) s = Some run <->
  Spec.firstMatch before spaces after s run.
Proof.
  intros Hafter. rewrite search_Some. unfold Spec.firstMatch.
  split; intros (pre & rest & Hs & Hm & Hfirst); exists pre, rest;
    (split; [exact Hs|]).
  - split; [now apply run_at_matchesAt|].
    intros pre' rest' Hs' Hlt run' Hm'.
    apply (run_at_matchesAt _ _ _ _ _ Hafter) in Hm'.
    rewrite (Hfirst pre' rest' Hs' Hlt) in Hm'. discriminate.
  - split; [now apply run_at_matchesAt|].
    intros pre' rest' Hs' Hlt.
    destruct (Style.run_at before spaces after rest') as [run'|] eqn:Hr;
      [|reflexivity].
    apply (run_at_matchesAt _ _ _ _ _ Hafter) in Hr.
    now destruct (Hfirst pre' rest' Hs' Hlt run').
Qed.

Lemma search_absent (before : string) (spaces : bool) (after : list string)
    (s : list ascii) :
  Spec.closes after ->
  Style.search (Style.run_at before spaces after) s = None <->
  ~ Spec.present before spaces after s.
Proof.
  intros Hafter. rewrite search_None. unfold Spec.present. split.
  - intros H (pre & rest & run & Hs & Hm).
    apply (run_at_matchesAt _ _ _ _ _ Hafter) in Hm.
    rewrite (H pre rest Hs) in Hm. discriminate.
  - intros H pre rest Hs.
    destruct (Style.run_at before spaces after rest) as [run|] eqn:Hr;
      [|reflexivity].
    apply (run_at_matchesAt _ _ _ _ _ Hafter) in Hr.
    destruct H. now exists pre, rest, run.
Qed.

Lemma closes_em_px : Spec.closes ["em"; "px"].
Proof. repeat constructor. Qed.

Lemma closes_em : Spec.closes ["em"].
Proof. repeat constructor. Qed.

(** The shape shared by the two [parsePosition] functions. *)
Lemma parsePosition_shape (after : list string) (s : list ascii)
    (result : option ParsedPosition.t) :
  Spec.closes after ->
  result =
    match Style.search (Style.run_at "left:" true after) s,
          Style.search (Style.run_at "top:" true after) s with
    | Some l, Some t =>
        Some (ParsedPosition.mk (JSString.parseFloat l) (JSString.parseFloat t))
    | _, _ => None
    end ->
  (result = None <->
   ~ Spec.present "left:" true after s \/ ~ Spec.present "top:" true after s) /\
  (forall p,
     result = Some p <->
     exists l t,
       Spec.firstMatch "left:" true after s l /\
       Spec.firstMatch "top:" true after s t /\
       p = ParsedPosition.mk (JSString.parseFloat l) (JSString.parseFloat t)).
Proof.
  intros Hafter ->.
  pose proof (search_firstMatch "left:" true after s) as HL.
  pose proof (search_firstMatch "top:" true after s) as HT.
  pose proof (search_absent "left:" true after s Hafter) as NL.
  pose proof (search_absent "top:" true after s Hafter) as NT.
  destruct (Style.search (Style.run_at "left:" true after) s) as [l|];
    destruct (Style.search (Style.run_at "top:" true after) s) as [t|].
  - split.
    + split; [discriminate|]. intros [H|H]; [apply NL in H|apply NT in H];
        discriminate.
    + intros p. split.
      * intros [= <-]. exists l, t. split; [now apply HL|].
        split; [now apply HT|reflexivity].
      * intros (l' & t' & Hl & Ht & ->).
        apply (HL l' Hafter) in Hl. apply (HT t' Hafter) in Ht.
        congruence.
  - split.
    + split; [|reflexivity]. intros _. right. now apply NT.
    + intros p. split; [discriminate|].
      intros (l' & t' & _ & Ht & _). apply (HT t' Hafter) in Ht. discriminate.
  - split.
    + split; [|reflexivity]. intros _. left. now apply NL.
    + intros p. split; [discriminate|].
      intros (l' & t' & Hl & _ & _). apply (HL l' Hafter) in Hl. discriminate.
  - split.
    + split; [|reflexivity]. intros _. left. now apply NL.
    + intros p. split; [discriminate|].
      intros (l' & t' & Hl & _ & _). apply (HL l' Hafter) in Hl. discriminate.
Qed.

(** C9, as the code has it.  The Maxroll parser reads the first [left:]
    and the first [top:] length written in [em] or in [px]; the Mobalytics
    parser reads those written in [em] only.  Each returns the two numbers
    when both lengths are found and null exactly when one of them is
    absent, and the callers then produce no node for the element. *)
Theorem parsePosition_accepted_units (style : string) :
  let s := Style.chars style in
  ((MaxrollParser.parsePosition style = None <->
    ~ Spec.present "left:" true ["em"; "px"] s \/
    ~ Spec.present "top:" true ["em"; "px"] s) /\
   (forall p,
      MaxrollParser.parsePosition style = Some p <->
      exists l t,
        Spec.firstMatch "left:" true ["em"; "px"] s l /\
        Spec.firstMatch "top:" true ["em"; "px"] s t /\
        p = ParsedPosition.mk (JSString.parseFloat l) (JSString.parseFloat t))) /\
  ((ParagonParser.parsePosition style = None <->
    ~ Spec.present "left:" true ["em"] s \/
    ~ Spec.present "top:" true ["em"] s) /\
   (forall p,
      ParagonParser.parsePosition style = Some p <->
      exists l t,
        Spec.firstMatch "left:" true ["em"] s l /\
        Spec.firstMatch "top:" true ["em"] s t /\
        p = ParsedPosition.mk (JSString.parseFloat l) (JSString.parseFloat t))) /\
  (forall element,
     Element.style element = style ->
     (MaxrollParser.parsePosition style = None ->
      MaxrollParser.parseNodeElement element = None) /\
     (ParagonParser.parsePosition style = None ->
      (forall isGate, ParagonParser.parseNodeElement element isGate = None) /\
      ParagonParser.parseGlyphSocket element = None)).
Proof.
  intros s. split; [|split].
  - apply (parsePosition_shape ["em"; "px"] s); [apply closes_em_px|reflexivity].
  - apply (parsePosition_shape ["em"] s); [apply closes_em|reflexivity].
  - intros element <-. split.
    + intros H. unfold MaxrollParser.parseNodeElement. now rewrite H.
    + intros H. split.
      * intros isGate. unfold ParagonParser.parseNodeElement. now rewrite H.
      * unfold ParagonParser.parseGlyphSocket. now rewrite H.
Qed.

(** A style without a [top] length: no position, and no node. *)
Lemma parsePosition_accepted_units_witness :
  let element := Samples.element "left: 8em;" in
  MaxrollParser.parsePosition "left: 8em;" = None /\
  MaxrollParser.parseNodeElement element = None /\
  (forall isGate, ParagonParser.parseNodeElement element isGate = None) /\
  ParagonParser.parseGlyphSocket element = None.
Proof.
  intros element.
  destruct (proj2 (proj2 (parsePosition_accepted_units "left: 8em;"))
              element eq_refl) as [HM HP].
  split; [reflexivity|]. split; [apply HM; reflexivity|].
  apply HP. reflexivity.
Defined.

(** Fractions and signs are read as decimal numbers. *)
Example parsePosition_decimal :
  ParagonParser.parsePosition "left: 8.5em; top:-16.25em" =
  Some (ParsedPosition.mk (Finite (17 # 2)) (Finite (-65 # 4))).
Proof. reflexivity. Qed.

(** C9 as stated fails for the Mobalytics parser: a style whose lengths
    are written in [px] has both values, the Maxroll parser reads them,
    and the Mobalytics parser returns no position. *)
Lemma mobalytics_rejects_px :
  let style := "left: 8px; top: 16px;"%string in
  Spec.present "left:" true ["em"; "px"] (Style.chars style) /\
  Spec.present "top:" true ["em"; "px"] (Style.chars style) /\
  MaxrollParser.parsePosition style =
    Some (ParsedPosition.mk (Finite 8) (Finite 16)) /\
  ParagonParser.parsePosition style = None.
Proof.
  intros style. split; [|split; [|split; reflexivity]].
  - exists [], (Style.chars style), (Style.chars "8").
    split; [reflexivity|].
    apply (run_at_matchesAt _ _ _ _ _ closes_em_px). reflexivity.
  - exists (Style.chars "left: 8px; "), (Style.chars "top: 16px;"),
      (Style.chars "16").
    split; [reflexivity|].
    apply (run_at_matchesAt _ _ _ _ _ closes_em_px). reflexivity.
Qed.

(** * Further properties of the extractors and of the table *)

(** ** Board indices *)

Lemma paragon_parseBoards_from_indices (boardWrappers : list BoardElement.t)
    (k : Z) :
  let boards := ParagonParser.parseBoards_from k boardWrappers in
  StronglySorted Z.lt (Board.index <$> boards) /\
  Forall (fun board =>
            k < Board.index board <= k + Z.of_nat (length boardWrappers) /\
            Board.nodes board <> [] /\
            exists wrapper,
              boardWrappers !! Z.to_nat (Board.index board - k - 1) = Some wrapper /\
              board = ParagonParser.parseBoard wrapper (Board.index board))
         boards.
Proof.
  revert k. induction boardWrappers as [|w rest IH]; intros k.
  - split; constructor.
  - cbv zeta.
    change (ParagonParser.parseBoards_from k (w :: rest))
      with ((if 0 <? Z.of_nat (length (Board.nodes (ParagonParser.parseBoard w (k + 1))))
             then [ParagonParser.parseBoard w (k + 1)] else [])
              ++ ParagonParser.parseBoards_from (k + 1) rest).
    destruct (IH (k + 1)) as [Hsorted Hall].
    assert (Hshift :
      Forall (fun board =>
                k < Board.index board <= k + Z.of_nat (length (w :: rest)) /\
                Board.nodes board <> [] /\
                exists wrapper,
                  (w :: rest) !! Z.to_nat (Board.index board - k - 1)
                    = Some wrapper /\
                  board = ParagonParser.parseBoard wrapper (Board.index board))
             (ParagonParser.parseBoards_from (k + 1) rest)).
    { eapply Forall_impl; [exact Hall|]. simpl.
      intros board (Hrange & Hnodes & wrapper & Hw & Hb).
      split; [lia|]. split; [exact Hnodes|]. exists wrapper. split; [|exact Hb].
      replace (Z.to_nat (Board.index board - k - 1))
        with (S (Z.to_nat (Board.index board - (k + 1) - 1))) by lia.
      exact Hw. }
    remember (ParagonParser.parseBoard w (k + 1)) as first eqn:Hfirst.
    assert (Hindex : Board.index first = k + 1) by (subst first; reflexivity).
    destruct (0 <? Z.of_nat (length (Board.nodes first))) eqn:Hlen.
    + split.
      * change ([first] ++ ParagonParser.parseBoards_from (k + 1) rest)
          with (first :: ParagonParser.parseBoards_from (k + 1) rest).
        rewrite fmap_cons.
        constructor; [exact Hsorted|].
        apply Forall_fmap. eapply Forall_impl; [exact Hall|].
        simpl. intros board (Hrange & _). lia.
      * constructor; [|exact Hshift].
        split; [simpl length; lia|]. split.
        -- intros Hnil. rewrite Hnil in Hlen. simpl in Hlen. discriminate.
        -- exists w. rewrite Hindex.
           replace (k + 1 - k - 1) with 0 by lia.
           split; [reflexivity|exact Hfirst].
    + split; [exact Hsorted|exact Hshift].
Qed.

Lemma maxroll_parseBoards_from_indices (boardElements : list BoardElement.t)
    (k : Z) :
  let boards := MaxrollParser.parseBoards_from k boardElements in
  StronglySorted Z.lt (Board.index <$> boards) /\
  Forall (fun board =>
            k < Board.index board <= k + Z.of_nat (length boardElements) /\
            Board.nodes board <> [] /\
            exists boardEl,
              boardElements !! Z.to_nat (Board.index board - k - 1) = Some boardEl /\
              board = MaxrollParser.parseBoard boardEl (Board.index board))
         boards.
Proof.
  revert k. induction boardElements as [|w rest IH]; intros k.
  - split; constructor.
  - cbv zeta.
    change (MaxrollParser.parseBoards_from k (w :: rest))
      with ((if 0 <? Z.of_nat (length (Board.nodes (MaxrollParser.parseBoard w (k + 1))))
             then [MaxrollParser.parseBoard w (k + 1)] else [])
              ++ MaxrollParser.parseBoards_from (k + 1) rest).
    destruct (IH (k + 1)) as [Hsorted Hall].
    assert (Hshift :
      Forall (fun board =>
                k < Board.index board <= k + Z.of_nat (length (w :: rest)) /\
                Board.nodes board <> [] /\
                exists boardEl,
                  (w :: rest) !! Z.to_nat (Board.index board - k - 1)
                    = Some boardEl /\
                  board = MaxrollParser.parseBoard boardEl (Board.index board))
             (MaxrollParser.parseBoards_from (k + 1) rest)).
    { eapply Forall_impl; [exact Hall|]. simpl.
      intros board (Hrange & Hnodes & boardEl & Hw & Hb).
      split; [lia|]. split; [exact Hnodes|]. exists boardEl. split; [|exact Hb].
      replace (Z.to_nat (Board.index board - k - 1))
        with (S (Z.to_nat (Board.index board - (k + 1) - 1))) by lia.
      exact Hw. }
    remember (MaxrollParser.parseBoard w (k + 1)) as first eqn:Hfirst.
    assert (Hindex : Board.index first = k + 1) by (subst first; reflexivity).
    destruct (0 <? Z.of_nat (length (Board.nodes first))) eqn:Hlen.
    + split.
      * change ([first] ++ MaxrollParser.parseBoards_from (k + 1) rest)
          with (first :: MaxrollParser.parseBoards_from (k + 1) rest).
        rewrite fmap_cons.
        constructor; [exact Hsorted|].
        apply Forall_fmap. eapply Forall_impl; [exact Hall|].
        simpl. intros board (Hrange & _). lia.
      * constructor; [|exact Hshift].
        split; [simpl length; lia|]. split.
        -- intros Hnil. rewrite Hnil in Hlen. simpl in Hlen. discriminate.
        -- exists w. rewrite Hindex.
           replace (k + 1 - k - 1) with 0 by lia.
           split; [reflexivity|exact Hfirst].
    + split; [exact Hsorted|exact Hshift].
Qed.

(** X1.  [parseAllBoards] of either extractor returns no board for a page
    without the board container.  Otherwise the boards come in document
    order with strictly increasing indices; a board of index i is
    [parseBoard] of the i-th board element of the page, counted from 1, and
    has at least one node.  Board elements without nodes leave a gap in the
    numbering. *)
Theorem parseAllBoards_numbers_boards_by_document_position
    (page : option (list BoardElement.t)) :
  (ParagonParser.parseAllBoards None = [] /\
   MaxrollParser.parseAllBoards None = []) /\
  StronglySorted Z.lt (Board.index <$> ParagonParser.parseAllBoards page) /\
  StronglySorted Z.lt (Board.index <$> MaxrollParser.parseAllBoards page) /\
  (forall board,
     board ∈ ParagonParser.parseAllBoards page ->
     Board.nodes board <> [] /\
     exists boardElements wrapper,
       page = Some boardElements /\
       1 <= Board.index board <= Z.of_nat (length boardElements) /\
       boardElements !! Z.to_nat (Board.index board - 1) = Some wrapper /\
       board = ParagonParser.parseBoard wrapper (Board.index board)) /\
  (forall board,
     board ∈ MaxrollParser.parseAllBoards page ->
     Board.nodes board <> [] /\
     exists boardElements boardEl,
       page = Some boardElements /\
       1 <= Board.index board <= Z.of_nat (length boardElements) /\
       boardElements !! Z.to_nat (Board.index board - 1) = Some boardEl /\
       board = MaxrollParser.parseBoard boardEl (Board.index board)).
Proof.
  split; [split; reflexivity|].
  destruct page as [boardElements|]; simpl.
  - destruct (paragon_parseBoards_from_indices boardElements 0) as [HsP HallP].
    destruct (maxroll_parseBoards_from_indices boardElements 0) as [HsM HallM].
    split; [exact HsP|]. split; [exact HsM|]. split.
    + intros board Hin. rewrite Forall_forall in HallP.
      destruct (HallP board Hin) as (Hrange & Hnodes & wrapper & Hw & Hb).
      split; [exact Hnodes|]. exists boardElements, wrapper.
      split; [reflexivity|]. split; [lia|].
      replace (Board.index board - 1) with (Board.index board - 0 - 1) by lia.
      split; [exact Hw|exact Hb].
    + intros board Hin. rewrite Forall_forall in HallM.
      destruct (HallM board Hin) as (Hrange & Hnodes & boardEl & Hw & Hb).
      split; [exact Hnodes|]. exists boardElements, boardEl.
      split; [reflexivity|]. split; [lia|].
      replace (Board.index board - 1) with (Board.index board - 0 - 1) by lia.
      split; [exact Hw|exact Hb].
  - split; [constructor|]. split; [constructor|].
    split; intros board Hin; now apply elem_of_nil in Hin.
Qed.

(** ** The inferred rotation is a quarter turn *)

(** X2.  Whatever the nodes and the Dimensions, [determineBoardRotation]
    returns 0, 90, 180 or 270. *)
Theorem determineBoardRotation_is_quarter_turn
    (nodes : list Node.t) (d : Dimensions.t) :
  MaxrollParser.determineBoardRotation nodes d ∈ [0; 90; 180; 270].
Proof.
  rewrite determineBoardRotation_loop.
  induction (List.filter _ nodes) as [|gate rest IH]; simpl.
  - apply list_elem_of_here.
  - destruct (MaxrollParser.getDataEdge (Node.gridPosition gate) d) as [e|];
      [|exact IH].
    destruct (Node.gateEdge gate) as [v|]; [|exact IH].
    destruct e, v; vm_compute; repeat constructor.
Qed.

(** ** Shape of the table *)

Lemma normalize_range (r : Z) : 0 <= TableGenerator.normalize r < 360.
Proof.
  unfold TableGenerator.normalize. rewrite normalize_mod.
  apply Z.mod_pos_bound. lia.
Qed.



Lemma upto_reverse (n : Z) :
  reverse (JS.upto n) = (fun i => n - 1 - i) <$> JS.upto n.
Proof.
  apply list_eq. intros i.
  destruct (decide (i < Z.to_nat n)%nat) as [Hlt|Hge].
  - rewrite reverse_lookup by (rewrite upto_length; exact Hlt).
    rewrite upto_length, list_lookup_fmap.
    replace (Z.to_nat n - S i)%nat
      with (Z.to_nat (n - 1 - Z.of_nat i)) by lia.
    rewrite upto_lookup by lia.
    replace i with (Z.to_nat (Z.of_nat i)) at 2 by lia.
    rewrite upto_lookup by lia. reflexivity.
  - rewrite !lookup_ge_None_2; [reflexivity| |].
    + rewrite length_fmap, upto_length. lia.
    + rewrite length_reverse, upto_length. lia.
Qed.

Lemma normalize_half_turn (r m : Z) :
  r = 90 * m ->
  TableGenerator.normalize r ∈ [0; 90; 180; 270] /\
  TableGenerator.normalize (r + 180) = (TableGenerator.normalize r + 180) mod 360.
Proof.
  intros ->. unfold TableGenerator.normalize. rewrite !normalize_mod.
  split.
  - assert (H : In ((90 * m) mod 360) [0; 90; 180; 270]).
    { simpl. Z.to_euclidean_division_equations. lia. }
    now apply list_elem_of_In.
  - Z.to_euclidean_division_equations. lia.
Qed.

(** X4.  For a board at a rotation that is a multiple of 90, the table at
    that rotation plus 180 degrees is the table at that rotation with its
    rows in reverse order and the cells of every row in reverse order. *)
Theorem half_turn_reverses_rows_and_cells (board : Board.t) (r m : Z) :
  r = 90 * m ->
  TableGenerator.generateTable (Board.set_rotation (r + 180) board) =
  reverse (reverse <$> TableGenerator.generateTable (Board.set_rotation r board)).
Proof.
  intros Hr. destruct (normalize_half_turn r m Hr) as [Hn Hn'].
  unfold TableGenerator.generateTable. simpl.
  rewrite Hn'. clear Hn'.
  set (n := TableGenerator.normalize r) in *. clearbody n.
  set (d := Board.dimensions board). destruct d as [minRow maxRow minCol maxCol rows cols].
  rewrite <- list_fmap_compose, <- fmap_reverse, upto_reverse,
    <- list_fmap_compose.
  unfold TableGenerator.displayRows, TableGenerator.displayCols,
    TableGenerator.isRotated90or270, TableGenerator.transformCoordinates.
  repeat (apply elem_of_cons in Hn; destruct Hn as [->|Hn]);
    [| | | |now apply elem_of_nil in Hn]; simpl;
    apply list_fmap_ext; intros i dr _; simpl;
    rewrite <- fmap_reverse, upto_reverse, <- list_fmap_compose;
    apply list_fmap_ext; intros j dc _; simpl;
    do 2 f_equal; lia.
Qed.

(** The 2 by 2 sample board at 90 and at 270 degrees. *)
Lemma half_turn_reverses_rows_and_cells_witness :
  TableGenerator.generateTable (Board.set_rotation 270 Samples.diagonalBoard) =
  reverse (reverse <$> TableGenerator.generateTable
                         (Board.set_rotation 90 Samples.diagonalBoard)).
Proof.
  exact (half_turn_reverses_rows_and_cells Samples.diagonalBoard 90 1 eq_refl).
Defined.

(** X5.  A board whose grid is empty, with the Dimensions computed from
    that grid, is shown at any rotation as a table of one row holding one
    empty cell: the all-zero Dimensions span one row and one column. *)
Theorem empty_grid_gives_one_empty_cell (board : Board.t) :
  Board.grid board = ∅ ->
  Board.dimensions board = ParagonParser.getGridDimensions (Board.grid board) ->
  TableGenerator.generateTable board = [[TableGenerator.EmptyCell]].
Proof.
  intros Hgrid Hdims. rewrite Hgrid in Hdims.
  unfold TableGenerator.generateTable. rewrite Hdims, Hgrid.
  unfold TableGenerator.displayRows, TableGenerator.displayCols.
  change (ParagonParser.getGridDimensions ∅) with (Dimensions.mk 0 0 0 0 0 0).
  simpl Dimensions.minRow. simpl Dimensions.maxRow.
  simpl Dimensions.minCol. simpl Dimensions.maxCol.
  assert (Hone : forall b : bool, (if b then 0 - 0 + 1 else 0 - 0 + 1) = 1)
    by (intros []; reflexivity).
  rewrite !Hone. change (JS.upto 1) with [0]. simpl.
  unfold ParagonParser.getNodeAt, GridOps.getNodeAt.
  now rewrite lookup_empty.
Qed.

(** A board without nodes. *)
Lemma empty_grid_gives_one_empty_cell_witness :
  TableGenerator.generateTable
    (ParagonParser.parseBoard (BoardElement.mk "" "Empty" "" [] [] []) 1)
  = [[TableGenerator.EmptyCell]].
Proof.
  apply empty_grid_gives_one_empty_cell; reflexivity.
Defined.

(** ** Resolving the gates again *)

Lemma find_fmap_agree {A} (f g : A -> bool) (h : A -> A) (l : list A) :
  (forall x, g (h x) = f x) ->
  List.find g (h <$> l) = h <$> List.find f l.
Proof.
  intros Hfg. induction l as [|a l IH]; simpl; [reflexivity|].
  rewrite Hfg. destruct (f a); [reflexivity|exact IH].
Qed.

Lemma calculateGateConnections_lookup (boards : list Board.t) (i : nat) :
  ParagonParser.calculateGateConnections boards !! i =
  (fun board =>
     Board.set_nodes
       ((fun node =>
           if Node.isGate node
           then Node.set_connectsTo
                  (ParagonParser.connectionOf boards board node) node
           else node) <$> Board.nodes board)
       board) <$> boards !! i.
Proof. apply list_lookup_fmap. Qed.

Lemma connectionOf_after (boards : list Board.t) (board board' : Board.t)
    (node node' : Node.t) :
  Board.position board' = Board.position board ->
  Board.index board' = Board.index board ->
  Board.rotation board' = Board.rotation board ->
  Node.position node' = Node.position node ->
  ParagonParser.connectionOf
    (ParagonParser.calculateGateConnections boards) board' node'
  = ParagonParser.connectionOf boards board node.
Proof.
  intros Hpos Hidx Hrot Hnode.
  unfold ParagonParser.connectionOf, ParagonParser.findAdjacentBoard.
  rewrite Hpos, Hrot, Hnode.
  destruct (Board.position board) as [current|]; [|reflexivity].
  unfold ParagonParser.calculateGateConnections.
  match goal with
  | |- context [List.find ?g (?h <$> boards)] =>
      match goal with
      | |- context [List.find ?f boards] =>
          rewrite (find_fmap_agree f g h boards)
      end
  end.
  - match goal with
    | |- context [List.find ?f boards] => destruct (List.find f boards)
    end; reflexivity.
  - intros b. unfold ParagonParser.atExpected. simpl. now rewrite Hidx.
Qed.

(** X7.  Running [calculateGateConnections] of the Mobalytics extractor a
    second time changes nothing: the connections depend only on
    Positions, indices, names and rotations, and none of these is
    assigned. *)
Theorem calculateGateConnections_idempotent (boards : list Board.t) :
  ParagonParser.calculateGateConnections
    (ParagonParser.calculateGateConnections boards)
  = ParagonParser.calculateGateConnections boards.
Proof.
  apply list_eq. intros i.
  rewrite (calculateGateConnections_lookup
             (ParagonParser.calculateGateConnections boards) i).
  rewrite (calculateGateConnections_lookup boards i).
  destruct (boards !! i) as [board|]; [|reflexivity].
  simpl. f_equal. unfold Board.set_nodes. simpl. f_equal.
  rewrite <- list_fmap_compose.
  apply list_fmap_ext. intros j node _. simpl.
  destruct (Node.isGate node) eqn:Hgate; simpl; rewrite Hgate.
  - unfold Node.set_connectsTo. simpl. f_equal.
    now apply connectionOf_after.
  - reflexivity.
Qed.

(** ** What a connection can be *)

Lemma find_Some_elem {A} (f : A -> bool) (l : list A) (x : A) :
  List.find f l = Some x -> x ∈ l /\ f x = true.
Proof.
  intros H. pose proof (find_first f l) as Hf. rewrite H in Hf.
  destruct Hf as (pre & post & -> & Hx & _). split; [|exact Hx].
  apply elem_of_app. right. apply list_elem_of_here.
Qed.

(** X8.  After [calculateGateConnections] of the Mobalytics extractor a
    gate never points to its own board: the index kept in [connectsTo]
    differs from the index of the gate's board, and it is the index of one
    of the given boards, which has a Position. *)
Theorem gate_never_connects_to_its_own_board
    (boards : list Board.t) (board' : Board.t) (gate : Node.t)
    (connection : Connection.t) :
  board' ∈ ParagonParser.calculateGateConnections boards ->
  gate ∈ Board.nodes board' ->
  Node.isGate gate = true ->
  Node.connectsTo gate = Some connection ->
  Connection.index connection <> Board.index board' /\
  exists other,
    other ∈ boards /\ Board.index other = Connection.index connection /\
    is_Some (Board.position other).
Proof.
  intros Hboard Hgate Hflag Hconn.
  unfold ParagonParser.calculateGateConnections in Hboard.
  apply list_elem_of_fmap in Hboard. destruct Hboard as (board & -> & Hin).
  simpl in Hgate. apply list_elem_of_fmap in Hgate.
  destruct Hgate as (node & -> & Hnode).
  destruct (Node.isGate node) eqn:Hg; [|congruence].
  simpl in Hconn.
  unfold ParagonParser.connectionOf, ParagonParser.findAdjacentBoard in Hconn.
  destruct (Board.position board) as [current|]; [|discriminate].
  match type of Hconn with
  | context [List.find ?f boards] =>
      destruct (List.find f boards) as [other|] eqn:Hfind; [|discriminate]
  end.
  apply find_Some_elem in Hfind. destruct Hfind as [Hother Hat].
  injection Hconn as <-. simpl.
  unfold ParagonParser.atExpected in Hat.
  destruct (Board.position other) as [p|] eqn:Hp; [|discriminate].
  destruct (Z.eqb_spec (Board.index other) (Board.index board)) as [|Hne];
    [discriminate|].
  split; [exact Hne|]. exists other. split; [exact Hother|].
  split; [reflexivity|]. rewrite Hp. now eexists.
Qed.

(** The gate of the first sample board points to board 2. *)
Lemma gate_never_connects_to_its_own_board_witness :
  exists board' gate connection,
    ParagonParser.calculateGateConnections Samples.twoBoards !! 0%nat
      = Some board' /\
    Board.nodes board' !! 1%nat = Some gate /\
    Node.connectsTo gate = Some connection /\
    Connection.index connection = 2 /\
    Connection.index connection <> Board.index board'.
Proof.
  destruct (ParagonParser.calculateGateConnections Samples.twoBoards !! 0%nat)
    as [board'|] eqn:Hboard; [|discriminate].
  destruct (Board.nodes board' !! 1%nat) as [gate|] eqn:Hgate;
    [|vm_compute in Hboard; injection Hboard as <-; discriminate].
  destruct (Node.connectsTo gate) as [connection|] eqn:Hconn;
    [|vm_compute in Hboard; injection Hboard as <-;
      vm_compute in Hgate; injection Hgate as <-; discriminate].
  exists board', gate, connection.
  split; [reflexivity|]. split; [exact Hgate|]. split; [exact Hconn|].
  split.
  - vm_compute in Hboard. injection Hboard as <-.
    vm_compute in Hgate. injection Hgate as <-.
    vm_compute in Hconn. injection Hconn as <-. reflexivity.
  - apply (gate_never_connects_to_its_own_board Samples.twoBoards board' gate
             connection).
    + eapply list_elem_of_lookup_2, Hboard.
    + eapply list_elem_of_lookup_2, Hgate.
    + vm_compute in Hboard. injection Hboard as <-.
      vm_compute in Hgate. injection Hgate as <-. reflexivity.
    + exact Hconn.
Defined.

(** ** Neighbours see each other *)

Lemma find_is_Some {A} (f : A -> bool) (l : list A) (x : A) :
  x ∈ l -> f x = true -> is_Some (List.find f l).
Proof.
  intros Hin Hx. pose proof (find_first f l) as Hf.
  destruct (List.find f l) as [y|]; [now eexists|].
  rewrite Forall_forall in Hf. specialize (Hf x Hin). congruence.
Qed.

Lemma adjacent_opposite (a b : Board.t) (pa pb : Position.t) (e : Direction) :
  Board.position a = Some pa ->
  Board.position b = Some pb ->
  ParagonParser.atExpected a (ParagonParser.expectedPosition pa (Some e)) b
    = true ->
  ParagonParser.atExpected b
    (ParagonParser.expectedPosition pb (Some (Compass.opposite e))) a = true.
Proof.
  intros Ha Hb. rewrite !atExpected_adjacent.
  unfold Spec.adjacent, Spec.within.
  intros (p & Hp & Hne & Hl & Ht). rewrite Hb in Hp. injection Hp as <-.
  exists pa. split; [exact Ha|]. split; [congruence|].
  apply Qabs_Qlt_condition in Hl. apply Qabs_Qlt_condition in Ht.
  destruct e;
    unfold ParagonParser.expectedPosition, Compass.opposite,
      ParagonParser.BOARD_SIZE in *;
    cbn [Position.left Position.top] in *;
    split; apply Qabs_Qlt_condition; lra.
Qed.

(** X9.  Adjacency is mutual on boards whose Positions are whole numbers
    of at most 2^50 in magnitude, where none of the sums and differences
    of the search is rounded.  If [findAdjacentBoard] finds a board from
    a board of the list in some direction, then the search from the board
    found, in the opposite direction, finds a board as well, the first
    board there being a candidate. *)
Theorem adjacent_board_has_a_neighbour_back
    (boards : list Board.t) (current found : Board.t) (e : Direction) :
  Forall Spec.onWholes boards ->
  current ∈ boards ->
  ParagonParser.findAdjacentBoard boards current (Some e) = Some found ->
  is_Some (ParagonParser.findAdjacentBoard boards found
             (Some (Compass.opposite e))).
Proof.
  intros _ Hin Hfind. unfold ParagonParser.findAdjacentBoard in *.
  destruct (Board.position current) as [pa|] eqn:Ha; [|discriminate].
  apply find_Some_elem in Hfind. destruct Hfind as [_ Hat].
  assert (Hb : is_Some (Board.position found)).
  { unfold ParagonParser.atExpected in Hat.
    destruct (Board.position found); [now eexists|discriminate]. }
  destruct Hb as [pb Hb]. rewrite Hb.
  apply (find_is_Some _ boards current Hin).
  now apply (adjacent_opposite current found pa pb e).
Qed.

(** In the two sample boards the second board finds the first one to its
    left. *)
Lemma adjacent_board_has_a_neighbour_back_witness :
  exists first second,
    Samples.twoBoards !! 0%nat = Some first /\
    Samples.twoBoards !! 1%nat = Some second /\
    ParagonParser.findAdjacentBoard Samples.twoBoards first (Some RIGHT)
      = Some second /\
    is_Some (ParagonParser.findAdjacentBoard Samples.twoBoards second
               (Some LEFT)).
Proof.
  eexists. eexists. split; [reflexivity|]. split; [reflexivity|].
  split; [reflexivity|].
  apply (adjacent_board_has_a_neighbour_back Samples.twoBoards
           (ParagonParser.parseBoard Samples.leftBoard 1)
           (ParagonParser.parseBoard Samples.rightBoard 2) RIGHT).
  - exact twoBoards_onWholes.
  - apply list_elem_of_here.
  - reflexivity.
Defined.

(** ** Turning an edge *)

(** X10.  [rotateDirection] yields a direction exactly for the rotations
    that are multiples of 90.  A rotation of 0 keeps the edge, and turning
    by 90m and then by 90n degrees is turning by 90(m+n) degrees. *)
Theorem rotateDirection_composes (edge : Direction) :
  (forall r, is_Some (ParagonParser.rotateDirection edge r) <-> r mod 90 = 0) /\
  ParagonParser.rotateDirection edge 0 = Some edge /\
  (forall m n,
     ParagonParser.rotateDirection edge (90 * m) ≫=
       (fun turned => ParagonParser.rotateDirection turned (90 * n))
     = ParagonParser.rotateDirection edge (90 * (m + n))).
Proof.
  split; [|split; [destruct edge; reflexivity|]].
  - intros r. split.
    + intros [e He]. unfold ParagonParser.rotateDirection in He.
      rewrite normalize_mod in He. unfold JS.rem in He.
      destruct (Z.eqb_spec (Z.rem (r mod 360) 90) 0) as [H0|]; [|discriminate].
      revert H0. Z.to_euclidean_division_equations. lia.
    + intros Hr.
      replace r with (90 * (r / 90))
        by (revert Hr; Z.to_euclidean_division_equations; lia).
      rewrite rotateDirection_quarters. now eexists.
  - intros m n. rewrite !rotateDirection_quarters. simpl.
    rewrite rotateDirection_quarters. f_equal.
    assert (Hm : In (m mod 4) [0; 1; 2; 3]).
    { simpl. Z.to_euclidean_division_equations. lia. }
    assert (Hn : In (n mod 4) [0; 1; 2; 3]).
    { simpl. Z.to_euclidean_division_equations. lia. }
    rewrite (Zplus_mod m n 4).
    simpl in Hm, Hn.
    destruct Hm as [<-|[<-|[<-|[<-|[]]]]];
      destruct Hn as [<-|[<-|[<-|[<-|[]]]]];
      destruct edge; reflexivity.
Qed.

(** ** Reading a rotation *)

Lemma closes_deg : Spec.closes ["deg)"].
Proof. repeat constructor. Qed.

(** X11.  [parseRotation] returns 0 for a style without a
    [rotate(...deg)] transform, and otherwise the number written in the
    first such transform. *)
Theorem parseRotation_defaults_to_zero (style : string) :
  (~ Spec.present "rotate(" false ["deg)"] (Style.chars style) ->
   ParagonParser.parseRotation style = Finite 0) /\
  (forall run,
     Spec.firstMatch "rotate(" false ["deg)"] (Style.chars style) run ->
     ParagonParser.parseRotation style = JSString.parseFloat run).
Proof.
  unfold ParagonParser.parseRotation. split.
  - intros Habsent. apply (search_absent _ _ _ _ closes_deg) in Habsent.
    now rewrite Habsent.
  - intros run Hrun. apply (search_firstMatch _ _ _ _ _ closes_deg) in Hrun.
    now rewrite Hrun.
Qed.

(** A board style with a position only, and one turned by -90 degrees. *)
Lemma parseRotation_defaults_to_zero_witness :
  ParagonParser.parseRotation "" = Finite 0 /\
  ParagonParser.parseRotation "transform: rotate(-90deg);" = Finite (-90).
Proof.
  split.
  - apply (proj1 (parseRotation_defaults_to_zero "")).
    apply (search_absent _ _ _ _ closes_deg). reflexivity.
  - rewrite (proj2 (parseRotation_defaults_to_zero "transform: rotate(-90deg);")
               (Style.chars "-90")); [reflexivity|].
    apply (search_firstMatch _ _ _ _ _ closes_deg). reflexivity.
Defined.

(** ** Layers of a Mobalytics board *)

Lemma sorted_lookup {A} (R : A -> A -> Prop) (l : list A) (i j : nat) (a b : A) :
  StronglySorted R l -> (i < j)%nat ->
  l !! i = Some a -> l !! j = Some b -> R a b.
Proof.
  intros Hs. revert i j. induction Hs as [|x l Hs IH Hall]; intros i j Hlt Ha Hb.
  - discriminate.
  - destruct j as [|j]; [lia|]. simpl in Hb. destruct i as [|i]; simpl in Ha.
    + injection Ha as <-. rewrite Forall_forall in Hall. apply Hall.
      eapply list_elem_of_lookup_2, Hb.
    + apply (IH i j); [lia|exact Ha|exact Hb].
Qed.

Lemma all_sorted {A} (R : A -> A -> Prop) (l : list A) :
  (forall a b, a ∈ l -> b ∈ l -> R a b) -> StronglySorted R l.
Proof.
  induction l as [|x l IH]; intros H; constructor.
  - apply IH. intros a b Ha Hb. apply H; now apply list_elem_of_further.
  - apply Forall_forall. intros b Hb.
    apply H; [apply list_elem_of_here|now apply list_elem_of_further].
Qed.

Lemma socket_flags (container : BoardElement.t) (n : Node.t) :
  n ∈ ParagonParser.parseGlyphSockets container ->
  Node.isGate n = false /\ Node.isGlyph n = true.
Proof.
  unfold ParagonParser.parseGlyphSockets. rewrite list_elem_of_omap.
  intros (el & _ & H). unfold ParagonParser.parseGlyphSocket in H.
  destruct (ParagonParser.parsePosition _) as [p|]; [|discriminate].
  destruct (ParsedPosition.finite p); [|discriminate].
  injection H as <-. split; reflexivity.
Qed.

Lemma plain_flags (container : BoardElement.t) (n : Node.t) :
  n ∈ ParagonParser.parseNodes container ->
  Node.isGate n = false /\ Node.isGlyph n = false.
Proof.
  unfold ParagonParser.parseNodes. rewrite list_elem_of_omap.
  intros (el & _ & H). unfold ParagonParser.parseNodeElement in H.
  destruct (ParagonParser.parsePosition _) as [p|]; [|discriminate].
  destruct (ParsedPosition.finite p); [|discriminate].
  injection H as <-. split; reflexivity.
Qed.

Lemma gate_flags (container : BoardElement.t) (n : Node.t) :
  n ∈ ParagonParser.parseGates container ->
  Node.isGate n = true /\ Node.isGlyph n = false.
Proof.
  unfold ParagonParser.parseGates. rewrite list_elem_of_omap.
  intros (el & _ & H). unfold ParagonParser.parseNodeElement in H.
  destruct (ParagonParser.parsePosition _) as [p|]; [|discriminate].
  destruct (ParsedPosition.finite p); [|discriminate].
  injection H as <-. split; reflexivity.
Qed.

Lemma nodes_in_layers (container : BoardElement.t) (boardIndex : Z) :
  StronglySorted Compass.above
    (Board.nodes (ParagonParser.parseBoard container boardIndex)).
Proof.
  simpl. unfold Compass.above.
  apply StronglySorted_app. split; [|split].
  - intros a b Ha Hb. destruct (socket_flags _ _ Ha) as [Hg Hs].
    split; intros H; congruence.
  - apply all_sorted. intros a b Ha Hb.
    destruct (socket_flags _ _ Ha) as [Hg Hs]. split; intros H; congruence.
  - apply StronglySorted_app. split; [|split].
    + intros a b Ha Hb. destruct (plain_flags _ _ Ha) as [Hg Hs].
      destruct (gate_flags _ _ Hb) as [Hg' Hs']. split; intros H; congruence.
    + apply all_sorted. intros a b Ha Hb.
      destruct (plain_flags _ _ Ha) as [Hg Hs].
      destruct (plain_flags _ _ Hb) as [Hg' Hs']. split; intros H; congruence.
    + apply all_sorted. intros a b Ha Hb.
      destruct (gate_flags _ _ Ha) as [Hg Hs].
      destruct (gate_flags _ _ Hb) as [Hg' Hs']. split; intros H; congruence.
Qed.

Lemma getNodeAt_of_node (nodes : list Node.t) (j : nat) (node : Node.t) :
  nodes !! j = Some node ->
  exists i shown,
    (j <= i)%nat /\ nodes !! i = Some shown /\
    Node.gridPosition shown = Node.gridPosition node /\
    GridOps.getNodeAt nodes (GridOps.buildGrid nodes)
      (GridPosition.row (Node.gridPosition node))
      (GridPosition.col (Node.gridPosition node)) = Some shown.
Proof.
  intros Hj.
  assert (Hdom : GridOps.key node ∈ dom (GridOps.buildGrid nodes)).
  { unfold GridOps.buildGrid. rewrite buildGrid_from_dom.
    apply elem_of_union_r, elem_of_list_to_set, list_elem_of_fmap.
    exists node. split; [reflexivity|]. eapply list_elem_of_lookup_2, Hj. }
  apply elem_of_dom in Hdom. destruct Hdom as [i Hi].
  pose proof Hi as Hlast. unfold GridOps.buildGrid in Hlast.
  apply buildGrid_from_lookup in Hlast.
  destruct Hlast as [(i' & -> & shown & Hshown & Hkey & Hlater)|[Hempty _]];
    [|rewrite lookup_empty in Hempty; discriminate].
  simpl in Hi. exists i', shown. split; [|split; [exact Hshown|split]].
  - destruct (decide (j <= i')%nat) as [|Hgt]; [assumption|].
    exfalso. apply (Hlater j node); [lia|exact Hj|reflexivity].
  - unfold GridOps.key in Hkey. injection Hkey as Hr Hc.
    destruct (Node.gridPosition shown), (Node.gridPosition node).
    simpl in *. congruence.
  - unfold GridOps.getNodeAt. unfold GridOps.key in Hi. rewrite Hi. exact Hshown.
Qed.

(** X12.  In a board parsed by the Mobalytics extractor the cell of every
    node is occupied: [getNodeAt] at the GridPosition of a node returns a
    node at that GridPosition, the node itself or one that comes later in
    the list.  At the GridPosition of a gate it returns a gate, and at the
    GridPosition of a node that is not a glyph socket it never returns a
    glyph socket: gates cover plain nodes, and both cover sockets. *)
Theorem gates_cover_nodes_cover_sockets
    (container : BoardElement.t) (boardIndex : Z) (node : Node.t) :
  let board := ParagonParser.parseBoard container boardIndex in
  node ∈ Board.nodes board ->
  exists shown,
    ParagonParser.getNodeAt (Board.nodes board) (Board.grid board)
      (GridPosition.row (Node.gridPosition node))
      (GridPosition.col (Node.gridPosition node)) = Some shown /\
    shown ∈ Board.nodes board /\
    Node.gridPosition shown = Node.gridPosition node /\
    (Node.isGate node = true -> Node.isGate shown = true) /\
    (Node.isGlyph node = false -> Node.isGlyph shown = false).
Proof.
  intros board Hin. apply list_elem_of_lookup in Hin. destruct Hin as [j Hj].
  destruct (getNodeAt_of_node (Board.nodes board) j node Hj)
    as (i & shown & Hle & Hshown & Hpos & Hget).
  exists shown. split; [exact Hget|].
  split; [eapply list_elem_of_lookup_2, Hshown|]. split; [exact Hpos|].
  destruct (decide (i = j)) as [->|Hne].
  - rewrite Hj in Hshown. injection Hshown as <-. split; auto.
  - apply (sorted_lookup Compass.above (Board.nodes board) j i);
      [apply nodes_in_layers|lia|exact Hj|exact Hshown].
Qed.

(** The board with a glyph-socket backdrop under its top gate: the cell of
    the socket shows the gate. *)
Lemma gates_cover_nodes_cover_sockets_witness :
  let board := ParagonParser.parseBoard Samples.overlaidBoard 1 in
  exists socket shown,
    Board.nodes board !! 0%nat = Some socket /\
    Node.isGlyph socket = true /\
    ParagonParser.getNodeAt (Board.nodes board) (Board.grid board)
      (GridPosition.row (Node.gridPosition socket))
      (GridPosition.col (Node.gridPosition socket)) = Some shown /\
    Node.isGate shown = true /\
    Node.gridPosition shown = Node.gridPosition socket.
Proof.
  intros board.
  destruct (Board.nodes board !! 0%nat) as [socket|] eqn:Hsocket;
    [|discriminate].
  destruct (gates_cover_nodes_cover_sockets Samples.overlaidBoard 1 socket)
    as (shown & Hget & _ & Hpos & _).
  { eapply list_elem_of_lookup_2, Hsocket. }
  exists socket, shown. fold board in Hget.
  vm_compute in Hsocket. injection Hsocket as <-.
  split; [reflexivity|]. split; [reflexivity|]. split; [exact Hget|].
  split; [|exact Hpos].
  vm_compute in Hget. injection Hget as <-. reflexivity.
Defined.

(** ** Nodes lie inside the Dimensions *)

(** X13.  Take any list of nodes, build its grid with [buildGrid] and
    compute the Dimensions of that grid with [getGridDimensions]; both
    extractors have the same two functions.  Every node of the list lies
    inside these Dimensions, and they span at least one row and one
    column. *)
Theorem nodes_lie_inside_dimensions (nodes : list Node.t) (node : Node.t) :
  node ∈ nodes ->
  let d := ParagonParser.getGridDimensions (ParagonParser.buildGrid nodes) in
  let p := Node.gridPosition node in
  MaxrollParser.getGridDimensions (MaxrollParser.buildGrid nodes) = d /\
  Dimensions.minRow d <= GridPosition.row p <= Dimensions.maxRow d /\
  Dimensions.minCol d <= GridPosition.col p <= Dimensions.maxCol d /\
  1 <= Dimensions.rows d /\ 1 <= Dimensions.cols d.
Proof.
  intros Hnode d p. split; [reflexivity|].
  set (grid := GridOps.buildGrid nodes).
  assert (Hocc : is_Some (grid !! (GridPosition.row p, GridPosition.col p))).
  { apply elem_of_dom. unfold grid, GridOps.buildGrid.
    rewrite buildGrid_from_dom.
    apply elem_of_union_r, elem_of_list_to_set, list_elem_of_fmap.
    exists node. split; [reflexivity|exact Hnode]. }
  pose proof (occupied_within_dimensions _ _ _ Hocc) as [Hr Hc].
  fold d in Hr, Hc. split; [exact Hr|]. split; [exact Hc|].
  subst d. unfold ParagonParser.getGridDimensions, ParagonParser.buildGrid,
    GridOps.getGridDimensions in *. fold grid in Hr, Hc |- *.
  destruct (GridOps.positions grid) as [|q qs] eqn:Hpos.
  - apply positions_empty in Hpos. rewrite Hpos, lookup_empty in Hocc.
    now destruct Hocc.
  - simpl in *. lia.
Qed.

(** The three nodes of the overlaid sample board share two cells; the
    socket lies inside the Dimensions of their grid. *)
Lemma nodes_lie_inside_dimensions_witness :
  exists socket,
    Board.nodes (ParagonParser.parseBoard Samples.overlaidBoard 1) !! 0%nat
      = Some socket /\
    let d := ParagonParser.getGridDimensions
               (ParagonParser.buildGrid
                  (Board.nodes (ParagonParser.parseBoard Samples.overlaidBoard 1))) in
    Dimensions.minRow d <= GridPosition.row (Node.gridPosition socket)
      <= Dimensions.maxRow d /\
    1 <= Dimensions.cols d.
Proof.
  destruct (Board.nodes (ParagonParser.parseBoard Samples.overlaidBoard 1)
              !! 0%nat) as [socket|] eqn:Hsocket; [|discriminate].
  exists socket. split; [reflexivity|].
  destruct (nodes_lie_inside_dimensions
              (Board.nodes (ParagonParser.parseBoard Samples.overlaidBoard 1))
              socket) as (_ & Hrow & _ & _ & Hcols).
  { eapply list_elem_of_lookup_2, Hsocket. }
  split; [exact Hrow|exact Hcols].
Defined.

(** ** Text of a rotation *)

(** X14.  Take an integer angle of at most 2^53 in magnitude, which a
    number holds exactly and prints digit by digit.  For a multiple of 90,
    [formatRotation] gives one of four phrases, chosen by the angle modulo
    360.  For any other such angle it gives "Rotated N degrees" with N
    the angle as it was passed, not reduced modulo 360. *)
Theorem formatRotation_phrases (degrees : Z) :
  Z.abs degrees <= 2 ^ 53 ->
  TableGenerator.formatRotation degrees =
  if decide (degrees mod 90 = 0) then
    match (degrees mod 360) / 90 with
    | 0 => "No rotation"
    | 1 => "Rotated right once"
    | 2 => "Rotated right twice"
    | _ => "Rotated right thrice"
    end
  else "Rotated " +:+ pretty degrees +:+ " degrees".
Proof.
  intros _.
  destruct (decide (degrees mod 90 = 0)) as [H0|Hn].
  - rewrite (formatRotation_quarter degrees (degrees / 90))
      by (revert H0; Z.to_euclidean_division_equations; lia).
    assert (H : In (degrees mod 360) [0; 90; 180; 270]).
    { simpl. revert H0. Z.to_euclidean_division_equations. lia. }
    simpl in H. destruct H as [<-|[<-|[<-|[<-|[]]]]]; reflexivity.
  - unfold TableGenerator.formatRotation. rewrite normalize_mod.
    unfold TableGenerator.rotationMap.
    destruct (Z.eqb_spec (degrees mod 360) 0) as [E|_];
      [exfalso; apply Hn; revert E; Z.to_euclidean_division_equations; lia|].
    destruct (Z.eqb_spec (degrees mod 360) 90) as [E|_];
      [exfalso; apply Hn; revert E; Z.to_euclidean_division_equations; lia|].
    destruct (Z.eqb_spec (degrees mod 360) 180) as [E|_];
      [exfalso; apply Hn; revert E; Z.to_euclidean_division_equations; lia|].
    destruct (Z.eqb_spec (degrees mod 360) 270) as [E|_];
      [exfalso; apply Hn; revert E; Z.to_euclidean_division_equations; lia|].
    reflexivity.
Qed.

(** A quarter turn to the left reads as three to the right, and 405
    degrees are printed as they are. *)
Lemma formatRotation_phrases_witness :
  TableGenerator.formatRotation (-90) = "Rotated right thrice" /\
  TableGenerator.formatRotation 405 = "Rotated 405 degrees".
Proof.
  split.
  - rewrite (formatRotation_phrases (-90)); [reflexivity|vm_compute; congruence].
  - rewrite (formatRotation_phrases 405); [reflexivity|vm_compute; congruence].
Defined.

(** ** The name kept in a connection *)

Lemma stripLeadingDigits_chars (s : string) :
  exists digits,
    Style.chars s = digits ++ Style.chars (JSString.stripLeadingDigits s) /\
    Forall (fun c => Style.is_digit c = true) digits /\
    match Style.chars (JSString.stripLeadingDigits s) with
    | [] => True
    | c :: _ => Style.is_digit c = false
    end.
Proof.
  unfold JSString.stripLeadingDigits, Style.chars.
  rewrite String.list_ascii_of_string_of_list_ascii.
  destruct (span_split Style.is_digit (String.list_ascii_of_string s))
    as (Hsplit & Hdigits & Hrest).
  exists (Style.span Style.is_digit (String.list_ascii_of_string s)).1.
  auto.
Qed.

(** X15.  The name kept in the [connectsTo] of a Mobalytics gate is the
    full name of the board found, or its name when the full name is empty,
    without its leading digits: it never starts with a digit, and putting
    the dropped digits back gives that name. *)
Theorem connection_name_drops_leading_digits
    (boards : list Board.t) (board' : Board.t) (gate : Node.t)
    (connection : Connection.t) :
  board' ∈ ParagonParser.calculateGateConnections boards ->
  gate ∈ Board.nodes board' ->
  Node.isGate gate = true ->
  Node.connectsTo gate = Some connection ->
  match Style.chars (Connection.name connection) with
  | [] => True
  | c :: _ => Style.is_digit c = false
  end /\
  exists other digits,
    other ∈ boards /\
    Board.index other = Connection.index connection /\
    Forall (fun c => Style.is_digit c = true) digits /\
    Style.chars (if decide (Board.fullName other = "")
                 then Board.name other else Board.fullName other)
    = digits ++ Style.chars (Connection.name connection).
Proof.
  intros Hboard Hgate Hflag Hconn.
  unfold ParagonParser.calculateGateConnections in Hboard.
  apply list_elem_of_fmap in Hboard. destruct Hboard as (board & -> & Hin).
  simpl in Hgate. apply list_elem_of_fmap in Hgate.
  destruct Hgate as (node & -> & Hnode).
  destruct (Node.isGate node) eqn:Hg; [|congruence].
  simpl in Hconn.
  unfold ParagonParser.connectionOf, ParagonParser.findAdjacentBoard in Hconn.
  destruct (Board.position board) as [current|]; [|discriminate].
  match type of Hconn with
  | context [List.find ?f boards] =>
      destruct (List.find f boards) as [other|] eqn:Hfind; [|discriminate]
  end.
  apply find_Some_elem in Hfind. destruct Hfind as [Hother _].
  injection Hconn as <-. simpl. rewrite label_source. unfold Spec.label.
  destruct (stripLeadingDigits_chars
              (if decide (Board.fullName other = "")
               then Board.name other else Board.fullName other))
    as (digits & Hsplit & Hdigits & Hhead).
  split; [exact Hhead|]. exists other, digits. auto.
Qed.

(** The gate of the first sample board keeps "Castle / Exploit" for the
    board whose full name is "2Castle / Exploit". *)
Lemma connection_name_drops_leading_digits_witness :
  exists board' gate connection,
    ParagonParser.calculateGateConnections Samples.twoBoards !! 0%nat
      = Some board' /\
    Board.nodes board' !! 1%nat = Some gate /\
    Node.connectsTo gate = Some connection /\
    Connection.name connection = "Castle / Exploit" /\
    match Style.chars (Connection.name connection) with
    | [] => True
    | c :: _ => Style.is_digit c = false
    end.
Proof.
  destruct (ParagonParser.calculateGateConnections Samples.twoBoards !! 0%nat)
    as [board'|] eqn:Hboard; [|discriminate].
  destruct (Board.nodes board' !! 1%nat) as [gate|] eqn:Hgate;
    [|vm_compute in Hboard; injection Hboard as <-; discriminate].
  destruct (Node.connectsTo gate) as [connection|] eqn:Hconn;
    [|vm_compute in Hboard; injection Hboard as <-;
      vm_compute in Hgate; injection Hgate as <-; discriminate].
  exists board', gate, connection.
  split; [reflexivity|]. split; [exact Hgate|]. split; [exact Hconn|].
  split.
  - vm_compute in Hboard. injection Hboard as <-.
    vm_compute in Hgate. injection Hgate as <-.
    vm_compute in Hconn. injection Hconn as <-. reflexivity.
  - apply (connection_name_drops_leading_digits Samples.twoBoards board' gate
             connection).
    + eapply list_elem_of_lookup_2, Hboard.
    + eapply list_elem_of_lookup_2, Hgate.
    + vm_compute in Hboard. injection Hboard as <-.
      vm_compute in Hgate. injection Hgate as <-. reflexivity.
    + exact Hconn.
Defined.

(** ** The grid keeps the order and the spacing of positions *)

Lemma Math_round_monotone (x y : Q) :
  (x <= y)%Q -> JS.Math_round x <= JS.Math_round y.
Proof.
  intros Hxy. unfold JS.Math_round. apply Qfloor_resp_le. lra.
Qed.

Lemma Math_round_Qeq (x y : Q) :
  (x == y)%Q -> JS.Math_round x = JS.Math_round y.
Proof.
  intros Hxy. unfold JS.Math_round. apply Qfloor_comp. rewrite Hxy. reflexivity.
Qed.

Lemma Math_round_shift (x : Q) (k : Z) :
  JS.Math_round (x + inject_Z k) = JS.Math_round x + k.
Proof.
  apply nearest_unique. pose proof (Math_round_nearest x) as [Hlo Hhi].
  unfold Spec.nearest. rewrite inject_Z_plus. split; lra.
Qed.

(** X16.  [positionToGrid] of either extractor keeps the order of
    positions on each axis: a Position further right never gets a smaller
    column and one further down never gets a smaller row.  A Position that
    lies exactly on a grid point, at a whole number of spacings on each
    axis, gets that row and that column. *)
Theorem positionToGrid_keeps_order_and_grid_points (p q : Position.t) :
  ((Position.left p <= Position.left q)%Q ->
   GridPosition.col (ParagonParser.positionToGrid p)
     <= GridPosition.col (ParagonParser.positionToGrid q) /\
   GridPosition.col (MaxrollParser.positionToGrid p)
     <= GridPosition.col (MaxrollParser.positionToGrid q)) /\
  ((Position.top p <= Position.top q)%Q ->
   GridPosition.row (ParagonParser.positionToGrid p)
     <= GridPosition.row (ParagonParser.positionToGrid q) /\
   GridPosition.row (MaxrollParser.positionToGrid p)
     <= GridPosition.row (MaxrollParser.positionToGrid q)) /\
  (forall row col,
     ParagonParser.positionToGrid
       (Position.mk (inject_Z col * ParagonParser.GRID_SPACING)
                    (inject_Z row * ParagonParser.GRID_SPACING))
     = GridPosition.mk row col /\
     MaxrollParser.positionToGrid
       (Position.mk (inject_Z col * MaxrollParser.GRID_SPACING)
                    (inject_Z row * MaxrollParser.GRID_SPACING))
     = GridPosition.mk row col).
Proof.
  unfold ParagonParser.positionToGrid, MaxrollParser.positionToGrid,
    ParagonParser.GRID_SPACING, MaxrollParser.GRID_SPACING. simpl.
  split; [|split].
  - intros H. split; apply Math_round_monotone.
    + apply Qmult_le_compat_r; [exact H|discriminate].
    + apply Qmult_le_compat_r; [exact H|discriminate].
  - intros H. split; apply Math_round_monotone.
    + apply Qmult_le_compat_r; [exact H|discriminate].
    + apply Qmult_le_compat_r; [exact H|discriminate].
  - intros row col.
    assert (Hpoint : forall k x, (x == 0 + inject_Z k)%Q -> JS.Math_round x = k).
    { intros k x Hx. rewrite (Math_round_Qeq _ _ Hx), Math_round_shift.
      reflexivity. }
    split; f_equal; apply Hpoint; field.
Qed.

(** ** Names of types and stats *)

Lemma toLowerCase_empty : JSString.toLowerCase "" = "".
Proof. reflexivity. Qed.

Ltac split_keys l :=
  repeat match goal with
         | |- context [String.eqb l ?k] => destruct (String.eqb_spec l k)
         | H : context [String.eqb l ?k] |- _ => destruct (String.eqb_spec l k)
         end.

Lemma formatNodeType_blank (type shown : string) :
  TableGenerator.formatNodeType type = Some shown ->
  (shown = "" <-> type = "").
Proof.
  unfold TableGenerator.formatNodeType, JSObject.get_or, JSObject.get.
  destruct (decide (type = "")) as [->|Hne]; [now intros [= <-]|].
  remember (JSString.toLowerCase type) as l eqn:Hl. clear Hl. simpl.
  split_keys l; intros H; try discriminate; injection H as <-;
    unfold JSString.or_else; simpl; try (split; [discriminate|contradiction]);
    tauto.
Qed.

(** X17.  When [formatNodeType] gives a text, the text is empty only for
    the empty type, and formatting it again changes nothing.  The entry of
    the map for "unknown" is the empty string, which the fallback replaces
    by the type as it was written. *)
Theorem formatNodeType_settles (type shown : string) :
  TableGenerator.formatNodeType type = Some shown ->
  (shown = "" <-> type = "") /\
  TableGenerator.formatNodeType shown = Some shown /\
  (JSString.toLowerCase type = "unknown" -> shown = type).
Proof.
  intros H. split; [exact (formatNodeType_blank type shown H)|].
  revert H.
  unfold TableGenerator.formatNodeType at 1, JSObject.get_or, JSObject.get.
  remember (JSString.toLowerCase type) as l eqn:Hl. simpl.
  split_keys l; intros H; try discriminate; injection H as <-;
    unfold JSString.or_else; simpl;
    try (split; [reflexivity|intros; congruence]).
  - split; [|reflexivity].
    unfold TableGenerator.formatNodeType, JSObject.get_or, JSObject.get.
    rewrite <- Hl, e. reflexivity.
  - split; [|reflexivity].
    unfold TableGenerator.formatNodeType, JSObject.get_or, JSObject.get.
    rewrite <- Hl. simpl.
    repeat match goal with
           | Hn : l <> ?k |- context [String.eqb l ?k] =>
               destruct (String.eqb_spec l k); [contradiction|]
           end.
    reflexivity.
Qed.

(** "RARE" is shown as "Rare". *)
Lemma formatNodeType_settles_witness :
  TableGenerator.formatNodeType "RARE" = Some "Rare" /\
  TableGenerator.formatNodeType "Rare" = Some "Rare".
Proof.
  split; [reflexivity|].
  apply (formatNodeType_settles "RARE" "Rare"). reflexivity.
Defined.

(** X18.  When [normalizeStatName] gives a name, the name is empty only
    for the empty stat, and normalising it again changes nothing. *)
Theorem normalizeStatName_settles (stat shown : string) :
  ParagonParser.normalizeStatName stat = Some shown ->
  (shown = "" <-> stat = "") /\
  ParagonParser.normalizeStatName shown = Some shown.
Proof.
  unfold ParagonParser.normalizeStatName at 1, JSObject.get_or, JSObject.get.
  remember (JSString.toLowerCase stat) as l eqn:Hl. simpl.
  assert (Hempty : stat = "" -> l = "") by (intros ->; exact Hl).
  split_keys l; intros H; try discriminate; injection H as <-;
    unfold JSString.or_else; simpl;
    try (split; [split; [discriminate|intros Hs; specialize (Hempty Hs);
                                       congruence]
                |reflexivity]).
  split; [tauto|].
  unfold ParagonParser.normalizeStatName, JSObject.get_or, JSObject.get.
  rewrite <- Hl. simpl.
  repeat match goal with
         | Hn : l <> ?k |- context [String.eqb l ?k] =>
             destruct (String.eqb_spec l k); [contradiction|]
         end.
  reflexivity.
Qed.

(** "DamageToElite" is shown as "Elite Damage". *)
Lemma normalizeStatName_settles_witness :
  ParagonParser.normalizeStatName "DamageToElite" = Some "Elite Damage" /\
  ParagonParser.normalizeStatName "Elite Damage" = Some "Elite Damage".
Proof.
  split; [reflexivity|].
  apply (normalizeStatName_settles "DamageToElite" "Elite Damage"). reflexivity.
Defined.

(** ** Text of a cell *)

Lemma append_empty (a b : string) : a +:+ b = "" -> a = "" /\ b = "".
Proof.
  destruct a; [intros H; split; [reflexivity|exact H]|discriminate].
Qed.

Lemma truthy_true (s : string) : JSString.truthy s = true <-> s <> "".
Proof.
  unfold JSString.truthy. destruct (String.eqb_spec s ""); simpl; split;
    congruence.
Qed.

Lemma truthy_false (s : string) : JSString.truthy s = false <-> s = "".
Proof.
  unfold JSString.truthy. destruct (String.eqb_spec s ""); simpl; split;
    congruence.
Qed.

Lemma or_else_empty (s : string) : JSString.or_else s "" = s.
Proof. unfold JSString.or_else. now destruct (String.eqb_spec s ""). Qed.

(** X19.  When [buildNodeContent] gives a text, the text is empty only
    for a node that is neither a gate nor a glyph socket, has the empty
    type and the empty stat, and is not selected.  Every other node has a
    text to read. *)
Theorem cell_text_blank_only_without_type_and_stat
    (node : Node.t) (shown : Display.t) (content : TableGenerator.Content) :
  TableGenerator.buildNodeContent node shown = Some content ->
  (TableGenerator.text content = "" <->
   Node.isGate node = false /\ Node.isGlyph node = false /\
   Display.type shown = "" /\ Display.stat shown = "" /\
   Display.isSelected shown = false).
Proof.
  unfold TableGenerator.buildNodeContent. rewrite or_else_empty.
  destruct node as [element position gridPosition isGate isGlyph gateEdge
                    connectsTo].
  destruct shown as [type stat glyphName isSelected]. simpl.
  assert (Hstar : forall base : string, base +:+ " *" <> "").
  { intros base H. apply append_empty in H. destruct H. discriminate. }
  assert (Hblank : forall base : string,
            base <> "" ->
            (if isSelected then base +:+ " *" else base) = "" <->
            false = true).
  { intros base Hb. destruct isSelected; split; try discriminate.
    - intros H. now apply Hstar in H.
    - contradiction. }
  destruct isGate.
  { destruct connectsTo as [connection|]; intros [= <-]; simpl;
      (split; [|intros (H & _); discriminate]);
      intros H; apply Hblank in H; discriminate. }
  destruct (isGlyph || String.eqb type "glyph") eqn:Hglyph.
  { assert (Hparts : forall base : string, base <> "" ->
              Some {| TableGenerator.text :=
                        if isSelected then base +:+ " *" else base;
                      TableGenerator.ariaLabel :=
                        if isSelected then base +:+ ", selected" else base |}
              = Some content ->
              TableGenerator.text content = "" <->
              false = false /\ isGlyph = false /\ type = "" /\ stat = "" /\
              isSelected = false).
    { intros base Hb [= <-]. simpl. rewrite (Hblank base Hb).
      split; [discriminate|]. intros (_ & -> & -> & _). discriminate. }
    destruct glyphName as [glyphName|].
    - destruct (JSString.truthy glyphName) eqn:Hname.
      + apply Hparts. discriminate.
      + destruct (JSString.truthy stat && JSString.startsWith stat "Glyph:")
          eqn:Hstat.
        * apply Hparts. apply andb_prop in Hstat. now apply truthy_true.
        * apply Hparts. discriminate.
    - destruct (JSString.truthy stat && JSString.startsWith stat "Glyph:")
        eqn:Hstat.
      + apply Hparts. apply andb_prop in Hstat. now apply truthy_true.
      + apply Hparts. discriminate. }
  apply orb_false_elim in Hglyph. destruct Hglyph as [-> Htype].
  destruct (TableGenerator.formatNodeType type) as [typeDisplay|] eqn:Hformat;
    [|discriminate].
  apply formatNodeType_blank in Hformat.
  destruct (JSString.truthy typeDisplay) eqn:Ht;
    destruct (JSString.truthy stat) eqn:Hs; simpl; intros [= <-]; simpl.
  - apply truthy_true in Ht, Hs. rewrite Hblank.
    + split; [discriminate|]. intros (_ & _ & _ & H & _). contradiction.
    + intros H. apply append_empty in H. tauto.
  - apply truthy_true in Ht. apply truthy_false in Hs. rewrite Hblank by exact Ht.
    split; [discriminate|]. intros (_ & _ & H & _). tauto.
  - apply truthy_false in Ht. apply truthy_true in Hs. rewrite Hblank by exact Hs.
    split; [discriminate|]. intros (_ & _ & _ & H & _). contradiction.
  - apply truthy_false in Ht, Hs. subst stat.
    destruct isSelected; simpl.
    + split; [discriminate|]. intros (_ & _ & _ & _ & H). discriminate.
    + tauto.
Qed.

(** A selected magic node with the stat "Dex" reads "Magic Dex *". *)
Lemma cell_text_blank_only_without_type_and_stat_witness :
  exists content,
    TableGenerator.buildNodeContent
      (Node.mk (Samples.element "left: 8em; top: 16em;") (Position.mk 8 16)
               (GridPosition.mk 2 1) false false None None)
      (Display.mk "magic" "Dex" None true) = Some content /\
    TableGenerator.text content = "Magic Dex *" /\
    TableGenerator.text content <> "".
Proof.
  destruct (TableGenerator.buildNodeContent
              (Node.mk (Samples.element "left: 8em; top: 16em;")
                       (Position.mk 8 16) (GridPosition.mk 2 1)
                       false false None None)
              (Display.mk "magic" "Dex" None true)) as [content|] eqn:H;
    [|discriminate].
  exists content. split; [reflexivity|]. split.
  - vm_compute in H. injection H as <-. reflexivity.
  - intros Hblank.
    apply (cell_text_blank_only_without_type_and_stat _ _ _ H) in Hblank.
    destruct Hblank as (_ & _ & Htype & _). discriminate.
Defined.

(** X20.  In the table of a Maxroll page every gate reads
    "Gate (no connection)", followed by the mark of a selected node when
    it is selected, whatever its type, its stat and the other boards of
    the page are. *)
Theorem maxroll_gate_cells_read_no_connection
    (page : option (list BoardElement.t)) (board : Board.t) (gate : Node.t)
    (shown : Display.t) :
  board ∈ MaxrollParser.calculateGateConnections
            (MaxrollParser.parseAllBoards page) ->
  gate ∈ Board.nodes board ->
  Node.isGate gate = true ->
  TableGenerator.buildNodeContent gate shown =
  Some {| TableGenerator.text :=
            if Display.isSelected shown then "Gate (no connection) *"
            else "Gate (no connection)";
          TableGenerator.ariaLabel :=
            if Display.isSelected shown then "Gate (no connection), selected"
            else "Gate (no connection)" |}.
Proof.
  intros Hboard Hgate Hflag.
  unfold MaxrollParser.calculateGateConnections, MaxrollParser.parseAllBoards
    in Hboard.
  destruct page as [boardElements|]; [|now apply elem_of_nil in Hboard].
  pose proof (maxroll_parseBoards_connectsTo _ _ _ _ Hboard Hgate) as Hnone.
  unfold TableGenerator.buildNodeContent. rewrite Hflag, Hnone. simpl.
  now destruct (Display.isSelected shown).
Qed.

(** The gate of the 3 by 3 sample board, selected. *)
Lemma maxroll_gate_cells_read_no_connection_witness :
  exists gate content,
    Board.nodes (MaxrollParser.parseBoard (Samples.threeByThree "d4t-s") 1)
      !! 1%nat = Some gate /\
    TableGenerator.buildNodeContent gate (Display.mk "gate" "Gate" (Some "") true)
      = Some content /\
    TableGenerator.text content = "Gate (no connection) *".
Proof.
  destruct (Board.nodes (MaxrollParser.parseBoard (Samples.threeByThree "d4t-s") 1)
              !! 1%nat) as [gate|] eqn:Hgate; [|discriminate].
  exists gate. eexists. split; [reflexivity|]. split.
  - apply (maxroll_gate_cells_read_no_connection
             (Some [Samples.threeByThree "d4t-s"])
             (MaxrollParser.parseBoard (Samples.threeByThree "d4t-s") 1)).
    + apply list_elem_of_lookup. exists 0%nat. reflexivity.
    + eapply list_elem_of_lookup_2, Hgate.
    + vm_compute in Hgate. injection Hgate as <-. reflexivity.
  - reflexivity.
Defined.

(** ** Navigation links and headings *)

Lemma paragon_parseBoards_from_places (boardWrappers : list BoardElement.t)
    (index : Z) :
  (length (ParagonParser.parseBoards_from index boardWrappers)
     <= length boardWrappers)%nat /\
  (forall k board,
     ParagonParser.parseBoards_from index boardWrappers !! k = Some board ->
     index + Z.of_nat k + 1 <= Board.index board) /\
  (length (ParagonParser.parseBoards_from index boardWrappers)
     = length boardWrappers ->
   forall k board,
     ParagonParser.parseBoards_from index boardWrappers !! k = Some board ->
     Board.index board = index + Z.of_nat k + 1).
Proof.
  revert index. induction boardWrappers as [|w rest IH]; intros index.
  - simpl. split; [lia|]. split; intros; discriminate.
  - change (ParagonParser.parseBoards_from index (w :: rest))
      with ((if 0 <? Z.of_nat (length (Board.nodes
                                         (ParagonParser.parseBoard w (index + 1))))
             then [ParagonParser.parseBoard w (index + 1)] else [])
              ++ ParagonParser.parseBoards_from (index + 1) rest).
    destruct (IH (index + 1)) as (Hlen & Hlow & Hall).
    destruct (0 <? _); simpl.
    + split; [lia|]. split.
      * intros [|k] board; simpl.
        -- intros [= <-]. simpl. lia.
        -- intros H. apply Hlow in H. lia.
      * intros Hfull [|k] board; simpl.
        -- intros [= <-]. simpl. lia.
        -- intros H. apply Hall in H; lia.
    + split; [lia|]. split.
      * intros k board H. apply Hlow in H. lia.
      * intros Hfull. lia.
Qed.

Lemma maxroll_parseBoards_from_places (boardElements : list BoardElement.t)
    (index : Z) :
  (length (MaxrollParser.parseBoards_from index boardElements)
     <= length boardElements)%nat /\
  (forall k board,
     MaxrollParser.parseBoards_from index boardElements !! k = Some board ->
     index + Z.of_nat k + 1 <= Board.index board) /\
  (length (MaxrollParser.parseBoards_from index boardElements)
     = length boardElements ->
   forall k board,
     MaxrollParser.parseBoards_from index boardElements !! k = Some board ->
     Board.index board = index + Z.of_nat k + 1).
Proof.
  revert index. induction boardElements as [|w rest IH]; intros index.
  - simpl. split; [lia|]. split; intros; discriminate.
  - change (MaxrollParser.parseBoards_from index (w :: rest))
      with ((if 0 <? Z.of_nat (length (Board.nodes
                                         (MaxrollParser.parseBoard w (index + 1))))
             then [MaxrollParser.parseBoard w (index + 1)] else [])
              ++ MaxrollParser.parseBoards_from (index + 1) rest).
    destruct (IH (index + 1)) as (Hlen & Hlow & Hall).
    destruct (0 <? _); simpl.
    + split; [lia|]. split.
      * intros [|k] board; simpl.
        -- intros [= <-]. simpl. lia.
        -- intros H. apply Hlow in H. lia.
      * intros Hfull [|k] board; simpl.
        -- intros [= <-]. simpl. lia.
        -- intros H. apply Hall in H; lia.
    + split; [lia|]. split.
      * intros k board H. apply Hlow in H. lia.
      * intros Hfull. lia.
Qed.

Lemma navigation_link (boards : list Board.t) (k : nat) (board : Board.t) :
  (2 <= length boards)%nat ->
  boards !! k = Some board ->
  ContentScript.addNavigationLandmarks boards !! k
  = Some ("#d4a-board-" +:+ pretty (Z.of_nat k + 1)).
Proof.
  intros Hlen Hk. unfold ContentScript.addNavigationLandmarks.
  destruct (Z.leb_spec (Z.of_nat (length boards)) 1); [lia|].
  rewrite list_lookup_imap, Hk. reflexivity.
Qed.

Lemma link_reaches_heading (k : nat) (board : Board.t) :
  "#d4a-board-" +:+ pretty (Z.of_nat k + 1)
    = "#" +:+ ContentScript.headingId board
  <-> Board.index board = Z.of_nat k + 1.
Proof.
  unfold ContentScript.headingId. split.
  - intros H. simpl in H. injection H as H.
    symmetry. now apply (inj pretty).
  - intros ->. reflexivity.
Qed.

(** X21.  With two boards or more, the k-th link of the navigation list
    (counted from 0) leads to the heading of the k-th board exactly when
    the index of that board is k + 1; the index is never smaller.  Every
    link leads to the heading of its board when no board element of the
    page was left out. *)
Theorem navigation_links_reach_headings
    (boardElements : list BoardElement.t) (boards : list Board.t)
    (k : nat) (board : Board.t) :
  boards ∈ [ParagonParser.parseAllBoards (Some boardElements);
            MaxrollParser.parseAllBoards (Some boardElements)] ->
  (2 <= length boards)%nat ->
  boards !! k = Some board ->
  exists href,
    ContentScript.addNavigationLandmarks boards !! k = Some href /\
    Z.of_nat k + 1 <= Board.index board /\
    (href = "#" +:+ ContentScript.headingId board
     <-> Board.index board = Z.of_nat k + 1) /\
    (length boards = length boardElements ->
     href = "#" +:+ ContentScript.headingId board).
Proof.
  intros Hboards Hlen Hk.
  exists ("#d4a-board-" +:+ pretty (Z.of_nat k + 1)).
  split; [now apply (navigation_link boards k board)|].
  assert (Hplaces :
            Z.of_nat k + 1 <= Board.index board /\
            (length boards = length boardElements ->
             Board.index board = Z.of_nat k + 1)).
  { apply elem_of_cons in Hboards. destruct Hboards as [->|Hboards].
    - destruct (paragon_parseBoards_from_places boardElements 0)
        as (_ & Hlow & Hall).
      simpl in *. split.
      + apply Hlow in Hk. lia.
      + intros Hfull. rewrite (Hall Hfull k board Hk). lia.
    - apply list_elem_of_singleton in Hboards. subst boards.
      destruct (maxroll_parseBoards_from_places boardElements 0)
        as (_ & Hlow & Hall).
      simpl in *. split.
      + apply Hlow in Hk. lia.
      + intros Hfull. rewrite (Hall Hfull k board Hk). lia. }
  destruct Hplaces as [Hlow Hfull].
  split; [exact Hlow|]. split.
  - apply link_reaches_heading.
  - intros H. apply link_reaches_heading. now apply Hfull.
Qed.

(** On the page of the two sample boards the second link leads to the
    heading of the second board. *)
Lemma navigation_links_reach_headings_witness :
  exists board href,
    Samples.twoBoards !! 1%nat = Some board /\
    ContentScript.addNavigationLandmarks Samples.twoBoards !! 1%nat
      = Some href /\
    href = "#d4a-board-2" /\
    href = "#" +:+ ContentScript.headingId board.
Proof.
  destruct (Samples.twoBoards !! 1%nat) as [board|] eqn:Hboard;
    [|discriminate].
  assert (Hin : Samples.twoBoards
                ∈ [ParagonParser.parseAllBoards
                     (Some [Samples.leftBoard; Samples.rightBoard]);
                   MaxrollParser.parseAllBoards
                     (Some [Samples.leftBoard; Samples.rightBoard])])
    by apply list_elem_of_here.
  assert (Hlen : (2 <= length Samples.twoBoards)%nat)
    by (vm_compute; lia).
  destruct (navigation_links_reach_headings
              [Samples.leftBoard; Samples.rightBoard] Samples.twoBoards 1 board
              Hin Hlen Hboard) as (href & Hhref & _ & _ & Hfull).
  exists board, href. split; [reflexivity|]. split; [exact Hhref|].
  split.
  - vm_compute in Hhref. injection Hhref as <-. reflexivity.
  - apply Hfull. reflexivity.
Defined.

(** A page whose first board element has no node: the only board kept has
    the index 2 and comes first. *)
Lemma skipped_board_shifts_indices :
  Board.index
    <$> ParagonParser.parseAllBoards
          (Some [BoardElement.mk "left: 0em; top: 0em;" "Empty" "1Empty" [] [] [];
                 Samples.leftBoard; Samples.rightBoard])
  = [2; 3].
Proof. reflexivity. Qed.
